(** * TaskManager (aplication_maps.ts): a shallow embedding and its properties

    JavaScript strings are sequences of UTF-16 code units, the [Map] of
    tasks is an association list in insertion order (the order [entries()]
    and [values()] iterate in), and the methods of [TaskManager] are
    computations in a small state and exception monad over the instance
    field [tasks], the browser's [localStorage] and a trace of the host
    calls made.  Part I holds the definitions, in the order of the source
    file and of what it calls; the parts after it hold the properties, of
    the TaskManager first and of the TaskUI last. *)

From Stdlib Require Import String Ascii.
From Stdlib Require Import List ZArith NArith Lia Bool.
From Stdlib Require Import Permutation Sorted.
Import ListNotations.

Local Open Scope N_scope.
Local Open Scope list_scope.

(** * Part I: the program *)

(** ** Strings *)

(** A JavaScript string: its UTF-16 code units. *)
Definition jsstring := list N.

(** An ASCII literal as a JavaScript string. *)
Definition lit (s : String.string) : jsstring :=
  map Ascii.N_of_ascii (String.list_ascii_of_string s).
Arguments lit s%_string.

Fixpoint jsstring_eqb (a b : jsstring) : bool :=
  match a, b with
  | [], [] => true
  | x :: a', y :: b' => (x =? y) && jsstring_eqb a' b'
  | _, _ => false
  end.

(** WhiteSpace and LineTerminator code points of ECMAScript, the ones
    [String.prototype.trim] strips: TAB, LF, VT, FF, CR, SP, NBSP, U+1680,
    U+2000..U+200A, LS, PS, U+202F, U+205F, U+3000 and the BOM. *)
Definition isWhiteSpace (c : N) : bool :=
  (c =? 9) || (c =? 10) || (c =? 11) || (c =? 12) || (c =? 13) || (c =? 32)
  || (c =? 160) || (c =? 5760) || ((8192 <=? c) && (c <=? 8202))
  || (c =? 8232) || (c =? 8233) || (c =? 8239) || (c =? 8287)
  || (c =? 12288) || (c =? 65279).

Fixpoint trimStart (s : jsstring) : jsstring :=
  match s with
  | c :: r => if isWhiteSpace c then trimStart r else s
  | [] => []
  end.

Definition trimEnd (s : jsstring) : jsstring := rev (trimStart (rev s)).

(** [s.trim()] *)
Definition trim (s : jsstring) : jsstring := trimEnd (trimStart s).

(** [!s]: the empty string is the only falsy string. *)
Definition falsy (s : jsstring) : bool :=
  match s with [] => true | _ :: _ => false end.

(** ** Map: keys in insertion order *)

Section MapOps.
Context {V : Type}.

Definition Map := list (jsstring * V).

Fixpoint Map_has (k : jsstring) (m : Map) : bool :=
  match m with
  | [] => false
  | (k', _) :: r => if jsstring_eqb k' k then true else Map_has k r
  end.

Fixpoint Map_get (k : jsstring) (m : Map) : option V :=
  match m with
  | [] => None
  | (k', v) :: r => if jsstring_eqb k' k then Some v else Map_get k r
  end.

(** [m.set(k, v)]: an existing key keeps its position, a new key goes last. *)
Fixpoint Map_set (k : jsstring) (v : V) (m : Map) : Map :=
  match m with
  | [] => [(k, v)]
  | (k', v') :: r =>
      if jsstring_eqb k' k then (k', v) :: r else (k', v') :: Map_set k v r
  end.

(** [m.delete(k)]: the entry removed, and whether there was one. *)
Fixpoint Map_delete (k : jsstring) (m : Map) : bool * Map :=
  match m with
  | [] => (false, [])
  | (k', v') :: r =>
      if jsstring_eqb k' k then (true, r)
      else let (d, r') := Map_delete k r in (d, (k', v') :: r')
  end.

Definition Map_size (m : Map) : nat := length m.
Definition Map_keys (m : Map) : list jsstring := map fst m.
Definition Map_values (m : Map) : list V := map snd m.
Definition Map_entries (m : Map) : list (jsstring * V) := m.

(** [new Map(entries)]: the entries are [set] one after the other. *)
Definition Map_from (es : list (jsstring * V)) : Map :=
  fold_left (fun m kv => Map_set (fst kv) (snd kv) m) es [].

(** The representation invariant of a Map: no key occurs twice. *)
Definition Map_wf (m : Map) : Prop := NoDup (Map_keys m).
End MapOps.
Arguments Map V : clear implicits.

(** ** Tasks *)

(** [createdAt] is a [Date] when the task comes from [addTask]; a task read
    back from storage carries the ISO string [JSON.parse] returns for it. *)
Inductive CreatedAt :=
| DateObject (tv : Z)
| DateString (s : jsstring).

Record Task := mkTask {
  id : jsstring;
  description : jsstring;
  datetime : jsstring;
  createdAt : CreatedAt
}.

(** ** Date: time values, [toISOString] and [Date.parse] *)

(** What the program takes from its host and the language leaves to it: the
    local time zone ([LocalTZA t] is the offset in milliseconds in force at
    local time [t]) and the fallback of [Date.parse] for the strings that are
    not in the Date Time String Format ([None] is NaN). *)
Record Host := mkHost {
  LocalTZA : Z -> Z;
  legacyDateParse : jsstring -> option Z
}.

Module Date.
Local Open Scope Z_scope.

Definition msPerDay : Z := 86400000.
Definition msPerHour : Z := 3600000.
Definition msPerMinute : Z := 60000.
Definition msPerSecond : Z := 1000.

Definition Day (t : Z) : Z := t / msPerDay.
Definition TimeWithinDay (t : Z) : Z := t mod msPerDay.

Definition isLeapYear (y : Z) : bool :=
  (y mod 4 =? 0) && (negb (y mod 100 =? 0) || (y mod 400 =? 0)).

Definition DayFromYear (y : Z) : Z :=
  365 * (y - 1970) + (y - 1969) / 4 - (y - 1901) / 100 + (y - 1601) / 400.

Definition TimeFromYear (y : Z) : Z := msPerDay * DayFromYear y.

(** The largest [y] with [TimeFromYear y <= t]: an estimate from the mean
    length of a year, corrected by one year where it is off. *)
Definition YearFromTime (t : Z) : Z :=
  let y := 1970 + Day t * 400 / 146097 in
  if t <? TimeFromYear y then y - 1
  else if TimeFromYear (y + 1) <=? t then y + 1
  else y.

Definition InLeapYear (t : Z) : Z :=
  if isLeapYear (YearFromTime t) then 1 else 0.

Definition DayWithinYear (t : Z) : Z := Day t - DayFromYear (YearFromTime t).

(** Day number, within a year, of the first day of month [m] (0 to 11). *)
Definition monthStart (leap m : Z) : Z :=
  if m <=? 0 then 0
  else if m =? 1 then 31
  else leap + nth (Z.to_nat (m - 2))
                  [59; 90; 120; 151; 181; 212; 243; 273; 304; 334] 365.

Definition MonthFromTime (t : Z) : Z :=
  let d := DayWithinYear t in
  let leap := InLeapYear t in
  Z.of_nat (List.length
    (filter (fun m => monthStart leap m <=? d)
            [1; 2; 3; 4; 5; 6; 7; 8; 9; 10; 11])).

Definition DateFromTime (t : Z) : Z :=
  DayWithinYear t - monthStart (InLeapYear t) (MonthFromTime t) + 1.

Definition HourFromTime (t : Z) : Z := (t / msPerHour) mod 24.
Definition MinFromTime (t : Z) : Z := (t / msPerMinute) mod 60.
Definition SecFromTime (t : Z) : Z := (t / msPerSecond) mod 60.
Definition msFromTime (t : Z) : Z := t mod msPerSecond.

Definition digit (d : Z) : N := Z.to_N (48 + d).

(** [v] in decimal on [n] digits. *)
Fixpoint pad (n : nat) (v : Z) : jsstring :=
  match n with
  | O => []
  | S n' => pad n' (v / 10) ++ [digit (v mod 10)]
  end.

(** [new Date(t).toISOString()], for a time value [t] in range:
    YYYY-MM-DDTHH:mm:ss.sssZ, the year on six signed digits outside
    0..9999. *)
Definition toISOString (t : Z) : jsstring :=
  let y := YearFromTime t in
  (if (0 <=? y) && (y <=? 9999) then pad 4 y
   else (if y <? 0 then lit "-" else lit "+") ++ pad 6 (Z.abs y))
  ++ lit "-" ++ pad 2 (MonthFromTime t + 1)
  ++ lit "-" ++ pad 2 (DateFromTime t)
  ++ lit "T" ++ pad 2 (HourFromTime t)
  ++ lit ":" ++ pad 2 (MinFromTime t)
  ++ lit ":" ++ pad 2 (SecFromTime t)
  ++ lit "." ++ pad 3 (msFromTime t)
  ++ lit "Z".

Definition TimeClip (t : Z) : option Z :=
  if Z.abs t <=? 8640000000000000 then Some t else None.

Definition MakeDay (year month0 date : Z) : Z :=
  DayFromYear year + monthStart (if isLeapYear year then 1 else 0) month0
  + date - 1.

Definition MakeTime (h m s ms : Z) : Z :=
  h * msPerHour + m * msPerMinute + s * msPerSecond + ms.

Definition MakeDate (day time : Z) : Z := day * msPerDay + time.

Definition daysInMonth (year month0 : Z) : Z :=
  let leap := if isLeapYear year then 1 else 0 in
  monthStart leap (month0 + 1) - monthStart leap month0.

(** *** The Date Time String Format *)

Definition isDigit (c : N) : bool := ((48 <=? c) && (c <=? 57))%N.

Fixpoint take_digits (n : nat) (acc : Z) (s : jsstring)
  : option (Z * jsstring) :=
  match n with
  | O => Some (acc, s)
  | S n' =>
      match s with
      | c :: r =>
          if isDigit c then take_digits n' (10 * acc + (Z.of_N c - 48)) r
          else None
      | [] => None
      end
  end.

Definition starts (c : N) (s : jsstring) : option jsstring :=
  match s with
  | c' :: r => if (c' =? c)%N then Some r else None
  | [] => None
  end.

Record Fields := mkFields {
  f_year : Z; f_month : Z; f_day : Z;
  f_time : option (Z * Z * Z * Z);
  f_offset : option Z
}.

(** YYYY or a sign and YYYYYY; -000000 is not a year. *)
Definition scan_year (s : jsstring) : option (Z * jsstring) :=
  match s with
  | c :: r =>
      if (c =? 43)%N then take_digits 6 0 r
      else if (c =? 45)%N then
        match take_digits 6 0 r with
        | Some (y, r') => if y =? 0 then None else Some (- y, r')
        | None => None
        end
      else take_digits 4 0 s
  | [] => None
  end.

(** An optional [sep] and two digits; [dflt] when [sep] is not there. *)
Definition scan_opt2 (sep : N) (dflt : Z) (s : jsstring)
  : option (option Z * jsstring) :=
  match starts sep s with
  | Some r =>
      match take_digits 2 0 r with
      | Some (v, r') => Some (Some v, r')
      | None => None
      end
  | None => Some (None, s)
  end.

(** Z, or a sign and HH:mm; the offset in minutes. *)
Definition scan_offset (s : jsstring) : option (option Z * jsstring) :=
  match s with
  | [] => Some (None, [])
  | c :: r =>
      if (c =? 90)%N then Some (Some 0, r)
      else if ((c =? 43) || (c =? 45))%N then
        match take_digits 2 0 r with
        | Some (h, r1) =>
            match starts 58 r1 with
            | Some r2 =>
                match take_digits 2 0 r2 with
                | Some (m, r3) =>
                    if (h <=? 23) && (m <=? 59) then
                      Some (Some ((if (c =? 43)%N then 1 else -1)
                                  * (h * 60 + m)), r3)
                    else None
                | None => None
                end
            | None => None
            end
        | None => None
        end
      else None
  end.

(** THH:mm, THH:mm:ss or THH:mm:ss.sss, then the offset. *)
Definition scan_time (s : jsstring)
  : option (option (Z * Z * Z * Z) * option Z * jsstring) :=
  match starts 84 s with
  | None => Some (None, None, s)
  | Some r =>
      match take_digits 2 0 r with
      | Some (h, r1) =>
          match scan_opt2 58 0 r1 with
          | Some (Some m, r2) =>
              match scan_opt2 58 0 r2 with
              | Some (None, r3) =>
                  match scan_offset r3 with
                  | Some (o, r4) => Some (Some (h, m, 0, 0), o, r4)
                  | None => None
                  end
              | Some (Some sec, r3) =>
                  match starts 46 r3 with
                  | None =>
                      match scan_offset r3 with
                      | Some (o, r4) => Some (Some (h, m, sec, 0), o, r4)
                      | None => None
                      end
                  | Some r4 =>
                      match take_digits 3 0 r4 with
                      | Some (ms, r5) =>
                          match scan_offset r5 with
                          | Some (o, r6) => Some (Some (h, m, sec, ms), o, r6)
                          | None => None
                          end
                      | None => None
                      end
                  end
              | None => None
              end
          | _ => None
          end
      | None => None
      end
  end.

Definition scan (s : jsstring) : option Fields :=
  match scan_year s with
  | None => None
  | Some (y, r) =>
      match scan_opt2 45 1 r with
      | None => None
      | Some (mo, r1) =>
          match (match mo with
                 | Some _ => scan_opt2 45 1 r1
                 | None => Some (None, r1)
                 end) with
          | None => None
          | Some (d, r2) =>
              match scan_time r2 with
              | Some (t, o, []) =>
                  Some (mkFields y (match mo with Some v => v | None => 1 end)
                                 (match d with Some v => v | None => 1 end) t o)
              | _ => None
              end
          end
      end
  end.

(** The element values the format allows; 24 only as 24:00:00.000. *)
Definition in_range (f : Fields) : bool :=
  (1 <=? f_month f) && (f_month f <=? 12)
  && (1 <=? f_day f) && (f_day f <=? daysInMonth (f_year f) (f_month f - 1))
  && match f_time f with
     | None => true
     | Some (h, m, s, ms) =>
         (m <=? 59) && (s <=? 59)
         && ((h <=? 23) || ((h =? 24) && (m =? 0) && (s =? 0) && (ms =? 0)))
     end.

(** Without an offset a date-only form is UTC and a date-time form is
    local time. *)
Definition time_of (host : Host) (f : Fields) : option Z :=
  let day := MakeDay (f_year f) (f_month f - 1) (f_day f) in
  match f_time f with
  | None => TimeClip (MakeDate day 0)
  | Some (h, m, s, ms) =>
      let t := MakeDate day (MakeTime h m s ms) in
      match f_offset f with
      | Some o => TimeClip (t - o * msPerMinute)
      | None => TimeClip (t - LocalTZA host t)
      end
  end.

(** [Date.parse(s)]; [None] is NaN. *)
Definition parse (host : Host) (s : jsstring) : option Z :=
  match scan s with
  | Some f => if in_range f then time_of host f else legacyDateParse host s
  | None => legacyDateParse host s
  end.

(** [new Date(s).getTime()] *)
Definition getTime (host : Host) (s : jsstring) : option Z := parse host s.
End Date.

Definition UTC_host : Host := mkHost (fun _ => 0%Z) (fun _ => None).

(** ** JSON *)

(** A JSON value.  A number keeps its lexeme: no task field is a number, so
    the value of one is never needed. *)
#[local] Unset Elimination Schemes.
Inductive json :=
| JNull
| JBool (b : bool)
| JNumber (lexeme : jsstring)
| JString (s : jsstring)
| JArray (items : list json)
| JObject (members : list (jsstring * json)).
#[local] Set Elimination Schemes.

Section JsonInd.
Variable P : json -> Prop.
Hypothesis HNull : P JNull.
Hypothesis HBool : forall b, P (JBool b).
Hypothesis HNumber : forall lexeme, P (JNumber lexeme).
Hypothesis HString : forall s, P (JString s).
Hypothesis HArray : forall l, Forall P l -> P (JArray l).
Hypothesis HObject :
    forall ms, Forall (fun kv => P (snd kv)) ms -> P (JObject ms).

Fixpoint json_ind (v : json) : P v :=
  match v with
  | JNull => HNull
  | JBool b => HBool b
  | JNumber lexeme => HNumber lexeme
  | JString s => HString s
  | JArray l =>
      HArray l
        ((fix all (l : list json) : Forall P l :=
            match l with
            | [] => Forall_nil P
            | x :: r => Forall_cons x (json_ind x) (all r)
            end) l)
  | JObject ms =>
      HObject ms
        ((fix all (ms : list (jsstring * json))
            : Forall (fun kv => P (snd kv)) ms :=
            match ms with
            | [] => Forall_nil _
            | (k, x) :: r =>
                Forall_cons (P := fun kv => P (snd kv)) (k, x)
                            (json_ind x) (all r)
            end) ms)
  end.
End JsonInd.

Module JSON.

Definition hexDigit (d : N) : N := if d <? 10 then 48 + d else 87 + d.

(** [\uXXXX], in lower case as [JSON.stringify] writes it. *)
Definition unicodeEscape (c : N) : jsstring :=
  [92; 117; hexDigit (c / 4096 mod 16); hexDigit (c / 256 mod 16);
   hexDigit (c / 16 mod 16); hexDigit (c mod 16)].

Definition isLeadingSurrogate (c : N) : bool := (55296 <=? c) && (c <=? 56319).
Definition isTrailingSurrogate (c : N) : bool := (56320 <=? c) && (c <=? 57343).

(** One code unit that is not half of a surrogate pair. *)
Definition quoteUnit (c : N) : jsstring :=
  if c =? 8 then [92; 98]
  else if c =? 9 then [92; 116]
  else if c =? 10 then [92; 110]
  else if c =? 12 then [92; 102]
  else if c =? 13 then [92; 114]
  else if c =? 34 then [92; 34]
  else if c =? 92 then [92; 92]
  else if (c <? 32) || isLeadingSurrogate c || isTrailingSurrogate c
       then unicodeEscape c
  else [c].

(** The characters of QuoteJSONString: it walks the code points, so a
    surrogate pair goes out as it is and a lone surrogate is escaped. *)
Fixpoint quoteChars (s : jsstring) : jsstring :=
  match s with
  | [] => []
  | c :: r =>
      match r with
      | d :: r' =>
          if isLeadingSurrogate c && isTrailingSurrogate d
          then c :: d :: quoteChars r'
          else quoteUnit c ++ quoteChars r
      | [] => quoteUnit c
      end
  end.

Definition quote (s : jsstring) : jsstring := [34] ++ quoteChars s ++ [34].

Fixpoint join (l : list jsstring) : jsstring :=
  match l with
  | [] => []
  | x :: r => match r with [] => x | _ :: _ => x ++ [44] ++ join r end
  end.

(** SerializeJSONProperty without a gap. *)
Fixpoint serialize (v : json) : jsstring :=
  match v with
  | JNull => lit "null"
  | JBool true => lit "true"
  | JBool false => lit "false"
  | JNumber lexeme => lexeme
  | JString s => quote s
  | JArray items => [91] ++ join (map serialize items) ++ [93]
  | JObject members =>
      [123]
      ++ join (map (fun kv => match kv with
                              | (k, x) => quote k ++ [58] ++ serialize x
                              end) members)
      ++ [125]
  end.

(** *** Parsing *)

Definition isJSONWhiteSpace (c : N) : bool :=
  (c =? 9) || (c =? 10) || (c =? 13) || (c =? 32).

Fixpoint skip_ws (s : jsstring) : jsstring :=
  match s with
  | c :: r => if isJSONWhiteSpace c then skip_ws r else s
  | [] => []
  end.

Definition hexValue (c : N) : option N :=
  if (48 <=? c) && (c <=? 57) then Some (c - 48)
  else if (97 <=? c) && (c <=? 102) then Some (c - 87)
  else if (65 <=? c) && (c <=? 70) then Some (c - 55)
  else None.

Definition hex4 (a b c d : N) : option N :=
  match hexValue a, hexValue b, hexValue c, hexValue d with
  | Some x, Some y, Some z, Some w => Some (((x * 16 + y) * 16 + z) * 16 + w)
  | _, _, _, _ => None
  end.

Definition simpleEscape (e : N) : option N :=
  if (e =? 34) || (e =? 92) || (e =? 47) then Some e
  else if e =? 98 then Some 8
  else if e =? 102 then Some 12
  else if e =? 110 then Some 10
  else if e =? 114 then Some 13
  else if e =? 116 then Some 9
  else None.

Definition cons_fst (c : N) (r : option (jsstring * jsstring))
  : option (jsstring * jsstring) :=
  match r with
  | Some (s, rest) => Some (c :: s, rest)
  | None => None
  end.

(** The characters of a string after its opening quote, up to and with
    the closing one: the string value and what follows it. *)
Fixpoint scan_chars (s : jsstring) : option (jsstring * jsstring) :=
  match s with
  | [] => None
  | c :: r =>
      if c =? 34 then Some ([], r)
      else if c =? 92 then
        match r with
        | [] => None
        | e :: r1 =>
            if e =? 117 then
              match r1 with
              | h1 :: h2 :: h3 :: h4 :: r2 =>
                  match hex4 h1 h2 h3 h4 with
                  | Some u => cons_fst u (scan_chars r2)
                  | None => None
                  end
              | _ => None
              end
            else
              match simpleEscape e with
              | Some u => cons_fst u (scan_chars r1)
              | None => None
              end
        end
      else if c <? 32 then None
      else cons_fst c (scan_chars r)
  end.

Definition isDigit (c : N) : bool := (48 <=? c) && (c <=? 57).

Fixpoint span_digits (s : jsstring) : jsstring * jsstring :=
  match s with
  | c :: r =>
      if isDigit c then let (d, r') := span_digits r in (c :: d, r')
      else ([], s)
  | [] => ([], [])
  end.

(** A number: an optional minus, an integer part without a leading zero
    (or a lone zero), an optional fraction, an optional exponent. *)
Definition scan_number (s : jsstring) : option (jsstring * jsstring) :=
  let (sign, s1) := match s with
                    | c :: r => if c =? 45 then ([c], r) else ([], s)
                    | [] => ([], s)
                    end in
  let (int, s2) := span_digits s1 in
  match int with
  | [] => None
  | d :: ds =>
      if (d =? 48) && negb (falsy ds) then None
      else
        let frac :=
          match s2 with
          | c :: r =>
              if c =? 46 then
                let (f, r') := span_digits r in
                if falsy f then None else Some (c :: f, r')
              else Some ([], s2)
          | [] => Some ([], s2)
          end in
        match frac with
        | None => None
        | Some (f, s3) =>
            let expo :=
              match s3 with
              | c :: r =>
                  if (c =? 101) || (c =? 69) then
                    let (sg, r1) :=
                      match r with
                      | c' :: r' =>
                          if (c' =? 43) || (c' =? 45) then ([c'], r')
                          else ([], r)
                      | [] => ([], r)
                      end in
                    let (e, r2) := span_digits r1 in
                    if falsy e then None else Some (c :: sg ++ e, r2)
                  else Some ([], s3)
              | [] => Some ([], s3)
              end in
            match expo with
            | None => None
            | Some (e, s4) => Some (sign ++ int ++ f ++ e, s4)
            end
        end
  end.

Fixpoint strip_prefix (p s : jsstring) : option jsstring :=
  match p with
  | [] => Some s
  | c :: p' =>
      match s with
      | c' :: s' => if c' =? c then strip_prefix p' s' else None
      | [] => None
      end
  end.

(** A value, leading white space allowed, and the rest of the text.  The
    fuel bounds the nesting and the number of items (see [parse]). *)
Fixpoint scan_value (fuel : nat) (s : jsstring) : option (json * jsstring) :=
  match fuel with
  | O => None
  | S f =>
      match skip_ws s with
      | [] => None
      | c :: r =>
          if c =? 34 then
            match scan_chars r with
            | Some (str, rest) => Some (JString str, rest)
            | None => None
            end
          else if c =? 91 then
            match skip_ws r with
            | [] => None
            | c' :: r' =>
                if c' =? 93 then Some (JArray [], r')
                else match scan_items f r with
                     | Some (items, rest) => Some (JArray items, rest)
                     | None => None
                     end
            end
          else if c =? 123 then
            match skip_ws r with
            | [] => None
            | c' :: r' =>
                if c' =? 125 then Some (JObject [], r')
                else match scan_members f r with
                     | Some (members, rest) => Some (JObject members, rest)
                     | None => None
                     end
            end
          else if c =? 110 then
            match strip_prefix (lit "ull") r with
            | Some rest => Some (JNull, rest)
            | None => None
            end
          else if c =? 116 then
            match strip_prefix (lit "rue") r with
            | Some rest => Some (JBool true, rest)
            | None => None
            end
          else if c =? 102 then
            match strip_prefix (lit "alse") r with
            | Some rest => Some (JBool false, rest)
            | None => None
            end
          else
            match scan_number (c :: r) with
            | Some (lexeme, rest) => Some (JNumber lexeme, rest)
            | None => None
            end
      end
  end

(** The items of a non-empty array, up to and with the closing bracket. *)
with scan_items (fuel : nat) (s : jsstring)
  : option (list json * jsstring) :=
  match fuel with
  | O => None
  | S f =>
      match scan_value f s with
      | None => None
      | Some (x, r) =>
          match skip_ws r with
          | [] => None
          | c :: r' =>
              if c =? 93 then Some ([x], r')
              else if c =? 44 then
                match scan_items f r' with
                | Some (xs, rest) => Some (x :: xs, rest)
                | None => None
                end
              else None
          end
      end
  end

(** The members of a non-empty object, up to and with the closing brace. *)
with scan_members (fuel : nat) (s : jsstring)
  : option (list (jsstring * json) * jsstring) :=
  match fuel with
  | O => None
  | S f =>
      match skip_ws s with
      | [] => None
      | q :: r0 =>
          if q =? 34 then
            match scan_chars r0 with
            | None => None
            | Some (k, r1) =>
                match skip_ws r1 with
                | [] => None
                | c1 :: r2 =>
                    if c1 =? 58 then
                      match scan_value f r2 with
                      | None => None
                      | Some (x, r3) =>
                          match skip_ws r3 with
                          | [] => None
                          | c :: r' =>
                              if c =? 125 then Some ([(k, x)], r')
                              else if c =? 44 then
                                match scan_members f r' with
                                | Some (ms, rest) => Some ((k, x) :: ms, rest)
                                | None => None
                                end
                              else None
                          end
                      end
                    else None
                end
            end
          else None
      end
  end.

(** [JSON.parse(text)] without a reviver; [None] is a SyntaxError.  A
    level of nesting or one more item costs two units of fuel at most and
    takes a character of the text at least. *)
Definition parse (text : jsstring) : option json :=
  match scan_value (S (2 * length text)) text with
  | Some (v, rest) => if falsy (skip_ws rest) then Some v else None
  | None => None
  end.

(** *** Measures and shapes used by the proofs *)

(** Values without numbers: all that this program writes. *)
Fixpoint num_free (v : json) : bool :=
  match v with
  | JNumber _ => false
  | JArray l => forallb num_free l
  | JObject ms =>
      forallb (fun kv => match kv with (_, x) => num_free x end) ms
  | _ => true
  end.

(** Fuel that is enough to read a value back. *)
Fixpoint jsize (v : json) : nat :=
  match v with
  | JArray l => S (fold_right (fun x n => S (jsize x + n)) O l)
  | JObject ms =>
      S (fold_right (fun kv n => match kv with
                                 | (_, x) => S (jsize x + n)
                                 end) O ms)
  | _ => 1%nat
  end.

Definition member_text (kv : jsstring * json) : jsstring :=
  match kv with (k, x) => quote k ++ [58] ++ serialize x end.

Definition items_size (l : list json) : nat :=
  fold_right (fun x n => S (jsize x + n)) O l.

Definition members_size (ms : list (jsstring * json)) : nat :=
  fold_right (fun kv n => match kv with (_, x) => S (jsize x + n) end) O ms.

(** The first character of a serialized value is not white space and
    closes neither an array nor an object. *)
Definition opens (s : jsstring) : Prop :=
  exists c tl, s = c :: tl
               /\ isJSONWhiteSpace c = false /\ c <> 93 /\ c <> 125.

(** What the induction gives for a value inside an array or an object. *)
Definition reads_back (v : json) : Prop :=
  num_free v = true ->
  forall f rest,
    (jsize v <= f)%nat ->
    scan_value f (serialize v ++ rest) = Some (v, rest).

End JSON.

(** ** The host objects: localStorage and the console *)

Inductive Exn :=
| Error (message : jsstring)
| SyntaxError
| TypeError
| QuotaExceededError.

(** [localStorage]: the items of the origin and the room the browser grants
    it, counted in code units of keys and values. *)
Record Storage := mkStorage {
  items : Map jsstring;
  quota : nat
}.

Definition Storage_usage (m : Map jsstring) : nat :=
  fold_right (fun kv n => (length (fst kv) + length (snd kv) + n)%nat) O m.

(** The calls the program makes on its host, oldest first. *)
Inductive Event :=
| SetItem (key value : jsstring) (thrown : option Exn)
| ConsoleError (message : jsstring) (error : Exn).

(** The state a method runs in: the field [this.tasks], the storage and the
    trace of host calls. *)
Record State := mkState {
  tasks : Map Task;
  localStorage : Storage;
  trace : list Event
}.

(** How a call ends.  [IllTyped] is for the run that leaves the typed
    program: [loadFromLocalStorage] on a slot whose JSON is not a
    [[string, Task][]], which TypeScript takes on trust. *)
Inductive Completion (A : Type) :=
| Normal (a : A)
| Throw (e : Exn)
| IllTyped.
Arguments Normal {A} a.
Arguments Throw {A} e.
Arguments IllTyped {A}.

Definition M (A : Type) : Type := State -> Completion A * State.

Definition ret {A} (a : A) : M A := fun st => (Normal a, st).

Definition bind {A B} (c : M A) (k : A -> M B) : M B :=
  fun st =>
    match c st with
    | (Normal a, st') => k a st'
    | (Throw e, st') => (Throw e, st')
    | (IllTyped, st') => (IllTyped, st')
    end.

Definition throw {A} (e : Exn) : M A := fun st => (Throw e, st).

(** [try { body } catch (error) { handler }] *)
Definition try_catch {A} (body : M A) (handler : Exn -> M A) : M A :=
  fun st =>
    match body st with
    | (Throw e, st') => handler e st'
    | r => r
    end.

Notation "x <- c ;; k" := (bind c (fun x => k))
  (at level 61, c at next level, right associativity).
Notation "c ;;; k" := (bind c (fun _ => k))
  (at level 61, right associativity).

Definition get_tasks : M (Map Task) := fun st => (Normal (tasks st), st).

Definition set_tasks (m : Map Task) : M unit :=
  fun st => (Normal tt, mkState m (localStorage st) (trace st)).

Definition log (e : Event) (st : State) : State :=
  mkState (tasks st) (localStorage st) (trace st ++ [e]).

(** [localStorage.getItem(key)]; [None] is null. *)
Definition getItem (key : jsstring) : M (option jsstring) :=
  fun st => (Normal (Map_get key (items (localStorage st))), st).

(** [localStorage.setItem(key, value)]: a QuotaExceededError, and no
    change, when the items would outgrow the quota. *)
Definition setItem (key value : jsstring) : M unit :=
  fun st =>
    let items' := Map_set key value (items (localStorage st)) in
    if (Storage_usage items' <=? quota (localStorage st))%nat then
      (Normal tt,
       log (SetItem key value None)
           (mkState (tasks st) (mkStorage items' (quota (localStorage st)))
                    (trace st)))
    else
      (Throw QuotaExceededError,
       log (SetItem key value (Some QuotaExceededError)) st).

(** [console.error(message, error)] *)
Definition console_error (message : jsstring) (error : Exn) : M unit :=
  fun st => (Normal tt, log (ConsoleError message error) st).

(** ** Tasks to JSON and back *)

(** [Date.prototype.toJSON] is [toISOString]; the dates of this program
    come from [new Date()] and are in range. *)
Definition createdAt_toJSON (c : CreatedAt) : json :=
  match c with
  | DateObject tv => JString (Date.toISOString tv)
  | DateString s => JString s
  end.

Definition Task_toJSON (t : Task) : json :=
  JObject [(lit "id", JString (id t));
           (lit "description", JString (description t));
           (lit "datetime", JString (datetime t));
           (lit "createdAt", createdAt_toJSON (createdAt t))].

Definition entries_toJSON (es : list (jsstring * Task)) : json :=
  JArray (map (fun kv => JArray [JString (fst kv); Task_toJSON (snd kv)]) es).

(** [JSON.stringify(tasksArray)] *)
Definition JSON_stringify (tasksArray : list (jsstring * Task)) : jsstring :=
  JSON.serialize (entries_toJSON tasksArray).

(** [JSON.parse(stored)] *)
Definition JSON_parse (text : jsstring) : M json :=
  match JSON.parse text with
  | Some v => ret v
  | None => throw SyntaxError
  end.

(** The object [JSON.parse] builds for a task that was written by
    [JSON_stringify], read at the type [Task]. *)
Definition Task_ofJSON (v : json) : option Task :=
  match v with
  | JObject [(k1, JString a); (k2, JString b); (k3, JString c); (k4, JString d)] =>
      if jsstring_eqb k1 (lit "id") && jsstring_eqb k2 (lit "description")
         && jsstring_eqb k3 (lit "datetime") && jsstring_eqb k4 (lit "createdAt")
      then Some (mkTask a b c (DateString d))
      else None
  | _ => None
  end.

(** An item of the iterable given to [new Map]: a primitive, for which the
    constructor throws; an object whose [0] and [1] are a string and a
    task; any other object. *)
Inductive EntryView :=
| Primitive
| Entry (key : jsstring) (value : Task)
| Untyped.

Definition entry_of (item : json) : EntryView :=
  match item with
  | JArray (JString k :: v :: _) =>
      match Task_ofJSON v with
      | Some t => Entry k t
      | None => Untyped
      end
  | JArray _ | JObject _ => Untyped
  | JNull | JBool _ | JNumber _ | JString _ => Primitive
  end.

Definition is_primitive (item : json) : bool :=
  match entry_of item with Primitive => true | _ => false end.

Fixpoint typed_entries (l : list json) : option (list (jsstring * Task)) :=
  match l with
  | [] => Some []
  | item :: r =>
      match entry_of item, typed_entries r with
      | Entry k t, Some es => Some ((k, t) :: es)
      | _, _ => None
      end
  end.

(** [new Map(tasksArray)] on a parsed value: null and the empty string give
    an empty Map, and the constructor throws a TypeError on what is not
    iterable and on the first item that is not an object. *)
Definition new_Map (tasksArray : json) : M (Map Task) :=
  match tasksArray with
  | JNull => ret []
  | JString s => if falsy s then ret [] else throw TypeError
  | JArray l =>
      if existsb is_primitive l then throw TypeError
      else match typed_entries l with
           | Some es => ret (Map_from es)
           | None => fun st => (IllTyped, st)
           end
  | JBool _ | JNumber _ | JObject _ => throw TypeError
  end.

(** A task as it is after a trip through the storage: [createdAt] is the
    ISO string of the date. *)
Definition revive (t : Task) : Task :=
  mkTask (id t) (description t) (datetime t)
         (match createdAt t with
          | DateObject tv => DateString (Date.toISOString tv)
          | DateString s => DateString s
          end).

Definition revive_entry (kv : jsstring * Task) : jsstring * Task :=
  (fst kv, revive (snd kv)).

Definition entry_toJSON (kv : jsstring * Task) : json :=
  JArray [JString (fst kv); Task_toJSON (snd kv)].

(** ** Array.prototype.sort *)

(** The number a comparator returns, NaN read as +0. *)
Definition SortCompare {A} (comparefn : A -> A -> option Z) (x y : A) : Z :=
  match comparefn x y with
  | Some v => v
  | None => 0%Z
  end.

Fixpoint sort_insert {A} (comparefn : A -> A -> option Z) (x : A) (l : list A)
  : list A :=
  match l with
  | [] => [x]
  | y :: r =>
      if (0 <? SortCompare comparefn x y)%Z then y :: sort_insert comparefn x r
      else x :: l
  end.

(** The language fixes the result of [sort] only for a consistent
    comparator: the stable sorted arrangement, whatever the sequence of
    comparisons (see [Array_sort_canonical]).  For the others the order is
    left to the engine; the model is the stable insertion sort, where an
    element moves only past a neighbour it compares greater than. *)
Definition Array_sort {A} (comparefn : A -> A -> option Z) (l : list A)
  : list A :=
  fold_right (sort_insert comparefn) [] l.

(** [a] may stand before [b] in an array sorted by [key]: their keys, when
    both are numbers, are in order. *)
Definition key_le {A} (key : A -> option Z) (a b : A) : Prop :=
  forall x y, key a = Some x -> key b = Some y -> (x <= y)%Z.

(** The key of [a] is a number, not NaN. *)
Definition has_key {A} (key : A -> option Z) (a : A) : Prop := key a <> None.

(** The key of [a] is the number [z]. *)
Definition key_is {A} (key : A -> option Z) (z : Z) (a : A) : bool :=
  match key a with
  | Some k => (k =? z)%Z
  | None => false
  end.

(** ** class TaskManager *)

Definition STORAGE_KEY : jsstring := lit "taskManager_tasks".

(** Error(`Tarefa com ID "${id}" já existe!`): the spec's DuplicateKey. *)
Definition DuplicateKey (id : jsstring) : Exn :=
  Error (lit "Tarefa com ID " ++ [34] ++ id ++ [34] ++ lit " j" ++ [225]
         ++ lit " existe!").

(** Error('Todos os campos são obrigatórios!'): the spec's InvalidInput. *)
Definition InvalidInput : Exn :=
  Error (lit "Todos os campos s" ++ [227] ++ lit "o obrigat" ++ [243]
         ++ lit "rios!").

Definition saveToLocalStorage : M unit :=
  try_catch
    (m <- get_tasks ;;
     let tasksArray := Map_entries m in
     setItem STORAGE_KEY (JSON_stringify tasksArray))
    (fun error => console_error (lit "Erro ao salvar no localStorage:") error).

Definition loadFromLocalStorage : M unit :=
  try_catch
    (stored <- getItem STORAGE_KEY ;;
     match stored with
     | Some text =>
         if falsy text then ret tt
         else
           tasksArray <- JSON_parse text ;;
           m <- new_Map tasksArray ;;
           set_tasks m
     | None => ret tt
     end)
    (fun error =>
       console_error (lit "Erro ao carregar do localStorage:") error ;;;
       set_tasks []).

Definition constructor : M unit :=
  set_tasks [] ;;;
  loadFromLocalStorage.

(** [now] is the time value of the [new Date()] of this call. *)
Definition addTask (now : Z) (id description datetime : jsstring) : M bool :=
  m <- get_tasks ;;
  if Map_has id m then throw (DuplicateKey id)
  else if falsy (trim id) || falsy (trim description) || falsy (trim datetime)
  then throw InvalidInput
  else
    let newTask := mkTask (trim id) (trim description) datetime (DateObject now) in
    set_tasks (Map_set id newTask m) ;;;
    saveToLocalStorage ;;;
    ret true.

(** [None] is undefined. *)
Definition getTask (id : jsstring) : M (option Task) :=
  m <- get_tasks ;;
  ret (Map_get id m).

Definition compareDatetime (host : Host) (a b : Task) : option Z :=
  match Date.getTime host (datetime a), Date.getTime host (datetime b) with
  | Some x, Some y => Some (x - y)%Z
  | _, _ => None
  end.

Definition getAllTasks (host : Host) : M (list Task) :=
  m <- get_tasks ;;
  ret (Array_sort (compareDatetime host) (Map_values m)).

Definition removeTask (id : jsstring) : M bool :=
  m <- get_tasks ;;
  let (deleted, m') := Map_delete id m in
  set_tasks m' ;;;
  if deleted then saveToLocalStorage ;;; ret deleted
  else ret deleted.

Definition hasTask (id : jsstring) : M bool :=
  m <- get_tasks ;;
  ret (Map_has id m).

Definition getTaskCount : M nat :=
  m <- get_tasks ;;
  ret (Map_size m).

Definition clearAllTasks : M unit :=
  set_tasks [] ;;;
  saveToLocalStorage.

(** ** States and predicates of the statements *)

(** A page opened for the first time: nothing stored, room for [q] code
    units, and the manager its constructor builds. *)
Definition fresh_state (q : nat) : State := mkState [] (mkStorage [] q) [].

(** The value of a call that ends normally, [d] otherwise. *)
Definition value {A} (d : A) (r : Completion A * State) : A :=
  match fst r with Normal a => a | _ => d end.

(** The state [saveToLocalStorage] leaves: the text goes in when it fits,
    and the thrown error goes to the console when it does not. *)
Definition saved (st : State) : State :=
  let text := JSON_stringify (tasks st) in
  let items' := Map_set STORAGE_KEY text (items (localStorage st)) in
  if (Storage_usage items' <=? quota (localStorage st))%nat then
    mkState (tasks st) (mkStorage items' (quota (localStorage st)))
            (trace st ++ [SetItem STORAGE_KEY text None])
  else
    mkState (tasks st) (localStorage st)
            (trace st
             ++ [SetItem STORAGE_KEY text (Some QuotaExceededError);
                 ConsoleError (lit "Erro ao salvar no localStorage:")
                              QuotaExceededError]).

(** Whether the write of the current tasks fits the quota. *)
Definition fits (st : State) : bool :=
  (Storage_usage (Map_set STORAGE_KEY (JSON_stringify (tasks st))
                          (items (localStorage st)))
   <=? quota (localStorage st))%nat.

Definition blank (id description datetime : jsstring) : bool :=
  falsy (trim id) || falsy (trim description) || falsy (trim datetime).

(** The parsed datetime of a task: [new Date(t.datetime).getTime()]. *)
Definition time_of_task (host : Host) (t : Task) : option Z :=
  Date.getTime host (datetime t).

(** Ascending by parsed datetime: of two tasks whose datetimes parse, the
    one that comes first has the earlier or the same time. *)
Definition sorted_by_datetime (host : Host) (l : list Task) : Prop :=
  StronglySorted (key_le (time_of_task host)) l.

(** The tasks of one parsed time [z]. *)
Definition at_time (host : Host) (z : Z) (t : Task) : bool :=
  key_is (time_of_task host) z t.

(** [a <= b] on the parsed datetimes as JavaScript compares numbers: false
    when one of them is NaN. *)
Definition date_le (host : Host) (a b : Task) : Prop :=
  exists x y,
    time_of_task host a = Some x /\ time_of_task host b = Some y
    /\ (x <= y)%Z.

(** The local times of the three datetimes of the example lie between
    these two time values. *)
Definition example_from : Z := 1735722000000.
Definition example_to : Z := 1735891200000.

(** A host whose zone offset is a day at most and moves by less than 22
    hours between [lo] and [hi]. *)
Definition calm_zone (host : Host) (lo hi : Z) : Prop :=
  forall t t',
    (lo <= t <= hi)%Z -> (lo <= t' <= hi)%Z ->
    (Z.abs (LocalTZA host t) <= Date.msPerDay)%Z
    /\ (Z.abs (LocalTZA host t - LocalTZA host t') < 22 * Date.msPerHour)%Z.

(** The two calls of the counterexamples: "a", then " a". *)
Definition after_a : State :=
  snd (addTask 1735722000000 (lit "a") (lit "first") (lit "2025-01-01T09:00")
               (snd (constructor (fresh_state 1000)))).

Definition add_padded_a : Completion bool * State :=
  addTask 1735725600000 (lit " a") (lit "second") (lit "2025-01-02T10:00")
          after_a.

(** The store of the example. *)
Definition example_store : State :=
  snd (addTask 3 (lit "C") (lit "third") (lit "2025-01-03T08:00")
    (snd (addTask 2 (lit "B") (lit "second") (lit "2025-01-01T09:00")
      (snd (addTask 1 (lit "A") (lit "first") (lit "2025-01-02T10:00")
        (snd (constructor (fresh_state 1000)))))))).

(** A store with a datetime that is not a date, reached by three calls of
    [addTask]. *)
Definition unparseable_store : State :=
  snd (addTask 3 (lit "C") (lit "third") (lit "2025-01-01T09:00")
    (snd (addTask 2 (lit "B") (lit "second") (lit "abc")
      (snd (addTask 1 (lit "A") (lit "first") (lit "2025-01-03T08:00")
        (snd (constructor (fresh_state 1000)))))))).

(** ** Sessions *)

(** What a page does to its manager: the three mutating methods, and a
    reload, which builds a new manager over the same storage. *)
Inductive Call :=
| CallAdd (now : Z) (id description datetime : jsstring)
| CallRemove (id : jsstring)
| CallClear
| CallReload.

(** The state after a call, whether it returned or threw. *)
Definition call (c : Call) (st : State) : State :=
  match c with
  | CallAdd now id description datetime =>
      snd (addTask now id description datetime st)
  | CallRemove id => snd (removeTask id st)
  | CallClear => snd (clearAllTasks st)
  | CallReload => snd (constructor st)
  end.

Definition session (cs : list Call) (st : State) : State :=
  fold_left (fun s c => call c s) cs st.

(** The task [addTask] builds. *)
Definition newTask (now : Z) (id description datetime : jsstring) : Task :=
  mkTask (trim id) (trim description) datetime (DateObject now).

(** The item of the program in the storage; [None] when there is none. *)
Definition slot (st : State) : option jsstring :=
  Map_get STORAGE_KEY (items (localStorage st)).

(** The manager of a new page before it has read the storage. *)
Definition unloaded (st : State) : State :=
  mkState [] (localStorage st) (trace st).

Definition load_error (e : Exn) : Event :=
  ConsoleError (lit "Erro ao carregar do localStorage:") e.

(** The item of the program is absent or is the text of a collection
    whose entries all satisfy [P]. *)
Definition slot_holds (P : jsstring * Task -> Prop) (st : State) : Prop :=
  slot st = None
  \/ exists m : Map Task,
       Map_wf m /\ Forall P m /\ slot st = Some (JSON_stringify m).

(** The collection and the item of the storage hold entries that satisfy
    [P], under distinct keys. *)
Definition Inv (P : jsstring * Task -> Prop) (st : State) : Prop :=
  Map_wf (tasks st) /\ Forall P (tasks st) /\ slot_holds P st.

(** The entry a call adds, when it adds one, satisfies [P]. *)
Definition admits (P : jsstring * Task -> Prop) (c : Call) : Prop :=
  match c with
  | CallAdd now id description datetime =>
      blank id description datetime = false ->
      P (id, newTask now id description datetime)
  | _ => True
  end.

(** The key of an entry is the id of its task. *)
Definition keyed_by_id (kv : jsstring * Task) : Prop := id (snd kv) = fst kv.

(** The id given to [addTask] has no white space around it. *)
Definition trimmed_id (c : Call) : Prop :=
  match c with
  | CallAdd _ id _ _ => trim id = id
  | _ => True
  end.

(** What [addTask] checks and normalises: id and description are not
    empty and have no white space around them, the datetime is not
    blank. *)
Definition fields_ok (kv : jsstring * Task) : Prop :=
  let t := snd kv in
  id t <> [] /\ trim (id t) = id t
  /\ description t <> [] /\ trim (description t) = description t
  /\ trim (datetime t) <> [].

(** [st] with the collection [m]: what an assignment to [this.tasks], or a
    mutation of the Map, leaves. *)
Definition with_tasks (m : Map Task) (st : State) : State :=
  mkState m (localStorage st) (trace st).

(** The storage holds the text of the collection as it is now. *)
Definition in_sync (st : State) : Prop :=
  slot st = Some (JSON_stringify (tasks st)).

(** A parsed value that [new Map] rejects with a TypeError: it is not
    iterable, or it yields an item that is not an object. *)
Definition not_entries (v : json) : bool :=
  match v with
  | JNull => false
  | JString s => negb (falsy s)
  | JArray l => existsb is_primitive l
  | JBool _ | JNumber _ | JObject _ => true
  end.

(** ** class TaskUI *)

(** What the page and the browser give the user interface: the engine, the
    text [toLocaleString('pt-BR', ...)] gives for a time value (NaN for an
    invalid date), the message of the errors the engine itself throws, and
    the default values [taskForm.reset()] puts back in the three inputs
    ([None] for an input that is not a control of the form). *)
Record Browser := mkBrowser {
  engine : Host;
  toLocaleString : option Z -> jsstring;
  engine_message : Exn -> jsstring;
  default_id : option jsstring;
  default_description : option jsstring;
  default_datetime : option jsstring
}.

(** The part of the document the class reads and writes: the values of
    the four inputs, the [innerHTML] given to the list and to the search
    result, the text and the class of the message box, the prompts
    [confirm] has shown and the delays left of the pending timeouts, each
    of which hides the message box. *)
Record Dom := mkDom {
  input_id : jsstring;
  input_description : jsstring;
  input_datetime : jsstring;
  input_search : jsstring;
  tasks_list : jsstring;
  search_result : jsstring;
  message_text : jsstring;
  message_class : jsstring;
  dialogs : list jsstring;
  timers : list Z
}.

Record UI := mkUI {
  manager : State;
  dom : Dom
}.

(** The second argument of [showMessage]: 'success' or 'error'. *)
Inductive MessageType := type_success | type_error.

Definition type_name (type : MessageType) : jsstring :=
  match type with
  | type_success => lit "success"
  | type_error => lit "error"
  end.

Definition msg_added (id : jsstring) : jsstring :=
  lit "Tarefa " ++ [34] ++ id ++ [34] ++ lit " adicionada com sucesso!".

Definition confirm_text (id : jsstring) : jsstring :=
  lit "Tem certeza que deseja remover a tarefa " ++ [34] ++ id ++ [34]
  ++ lit "?".

Definition msg_removed (id : jsstring) : jsstring :=
  lit "Tarefa " ++ [34] ++ id ++ [34] ++ lit " removida com sucesso!".

Definition msg_remove_error (id : jsstring) : jsstring :=
  lit "Erro ao remover tarefa " ++ [34] ++ id ++ [34].

Definition html_prompt : jsstring := lit "<p>Digite um ID para buscar.</p>".

Definition html_search_hit (task : Task) (formattedDate : jsstring) : jsstring :=
  [10] ++ lit "                <div class=" ++ [34] ++ lit "task-item"
  ++ [34] ++ lit ">" ++ [10] ++ lit "                    <div class=" ++ [34]
  ++ lit "task-info" ++ [34] ++ lit ">" ++ [10]
  ++ lit "                        <h3>ID: " ++ id task ++ lit "</h3>" ++ [10]
  ++ lit "                        <p><strong>Descri" ++ [231; 227]
  ++ lit "o:</strong> " ++ description task ++ lit "</p>" ++ [10]
  ++ lit "                        <p><strong>Data/Hora:</strong> "
  ++ formattedDate ++ lit "</p>" ++ [10] ++ lit "                    </div>"
  ++ [10] ++ lit "                </div>" ++ [10] ++ lit "            ".

Definition html_search_miss (searchId : jsstring) : jsstring :=
  lit "<p>Tarefa com ID " ++ [34] ++ searchId ++ [34] ++ lit " n" ++ [227]
  ++ lit "o encontrada.</p>".

Definition html_empty_state : jsstring :=
  [10] ++ lit "                <div class=" ++ [34] ++ lit "empty-state"
  ++ [34] ++ lit ">" ++ [10]
  ++ lit "                    <h3>Nenhuma tarefa cadastrada</h3>" ++ [10]
  ++ lit "                    <p>Adicione sua primeira tarefa usando o formul"
  ++ [225] ++ lit "rio acima.</p>" ++ [10] ++ lit "                </div>"
  ++ [10] ++ lit "            ".

Definition html_task_item (task : Task) (formatted : jsstring) : jsstring :=
  [10] ++ lit "            <div class=" ++ [34] ++ lit "task-item" ++ [34]
  ++ lit ">" ++ [10] ++ lit "                <div class=" ++ [34]
  ++ lit "task-info" ++ [34] ++ lit ">" ++ [10]
  ++ lit "                    <h3>" ++ id task ++ lit "</h3>" ++ [10]
  ++ lit "                    <p>" ++ description task ++ lit "</p>" ++ [10]
  ++ lit "                    <div class=" ++ [34] ++ lit "task-datetime"
  ++ [34] ++ lit ">" ++ formatted ++ lit "</div>" ++ [10]
  ++ lit "                </div>" ++ [10]
  ++ lit "                <button class=" ++ [34] ++ lit "delete-btn" ++ [34]
  ++ lit " onclick=" ++ [34] ++ lit "taskUI.removeTask('" ++ id task
  ++ lit "')" ++ [34] ++ lit ">" ++ [10] ++ lit "                    Remover"
  ++ [10] ++ lit "                </button>" ++ [10]
  ++ lit "            </div>" ++ [10] ++ lit "        ".

(** [new Date(datetime).toLocaleString('pt-BR', {...})] *)
Definition formatDateTime (b : Browser) (datetime : jsstring) : jsstring :=
  toLocaleString b (Date.parse (engine b) datetime).

Definition set_tasks_list (html : jsstring) (d : Dom) : Dom :=
  mkDom (input_id d) (input_description d) (input_datetime d) (input_search d)
        html (search_result d) (message_text d) (message_class d)
        (dialogs d) (timers d).

Definition set_search_result (html : jsstring) (d : Dom) : Dom :=
  mkDom (input_id d) (input_description d) (input_datetime d) (input_search d)
        (tasks_list d) html (message_text d) (message_class d)
        (dialogs d) (timers d).

Definition set_input_search (text : jsstring) (d : Dom) : Dom :=
  mkDom (input_id d) (input_description d) (input_datetime d) text
        (tasks_list d) (search_result d) (message_text d) (message_class d)
        (dialogs d) (timers d).

Definition set_inputs (i de dt : jsstring) (d : Dom) : Dom :=
  mkDom i de dt (input_search d)
        (tasks_list d) (search_result d) (message_text d) (message_class d)
        (dialogs d) (timers d).

Definition show_dialog (text : jsstring) (d : Dom) : Dom :=
  mkDom (input_id d) (input_description d) (input_datetime d) (input_search d)
        (tasks_list d) (search_result d) (message_text d) (message_class d)
        (dialogs d ++ [text]) (timers d).

(** [this.taskForm.reset()] *)
Definition form_reset (b : Browser) (d : Dom) : Dom :=
  set_inputs
    (match default_id b with Some v => v | None => input_id d end)
    (match default_description b with
     | Some v => v
     | None => input_description d
     end)
    (match default_datetime b with Some v => v | None => input_datetime d end)
    d.

(** The text, the class, and a timeout of 3000 ms that hides the box. *)
Definition showMessage (text : jsstring) (type : MessageType) (u : UI) : UI :=
  let d := dom u in
  mkUI (manager u)
       (mkDom (input_id d) (input_description d) (input_datetime d)
              (input_search d) (tasks_list d) (search_result d)
              text (lit "message " ++ type_name type)
              (dialogs d) (timers d ++ [3000%Z])).

(** The time [ms] goes by with no event: the timeouts that are due run,
    each setting the class of the message box to 'message hidden'. *)
Definition elapse (ms : Z) (u : UI) : UI :=
  let d := dom u in
  let due := existsb (fun r => (r <=? ms)%Z) (timers d) in
  mkUI (manager u)
       (mkDom (input_id d) (input_description d) (input_datetime d)
              (input_search d) (tasks_list d) (search_result d)
              (message_text d)
              (if due then lit "message hidden" else message_class d)
              (dialogs d)
              (map (fun r => (r - ms)%Z)
                   (filter (fun r => negb (r <=? ms)%Z) (timers d)))).

(** The markup [renderTasks] gives the list for a manager. *)
Definition rendered (b : Browser) (st : State) : jsstring :=
  let tasks := value [] (getAllTasks (engine b) st) in
  if (length tasks =? 0)%nat then html_empty_state
  else concat (map (fun task =>
                      html_task_item task (formatDateTime b (datetime task)))
                   tasks).

Definition renderTasks (b : Browser) (u : UI) : UI :=
  mkUI (manager u) (set_tasks_list (rendered b (manager u)) (dom u)).

(** [error instanceof Error ? error.message : 'Erro ao adicionar tarefa']:
    all the exceptions of the model are Errors. *)
Definition error_message (b : Browser) (e : Exn) : jsstring :=
  match e with
  | Error message => message
  | _ => engine_message b e
  end.

(** [now] is the time value of the [new Date()] of [addTask]. *)
Definition handleAddTask (b : Browser) (now : Z) (u : UI) : UI :=
  let id := input_id (dom u) in
  let description := input_description (dom u) in
  let datetime := input_datetime (dom u) in
  match addTask now id description datetime (manager u) with
  | (Normal _, st) =>
      showMessage (msg_added id) type_success
        (renderTasks b (mkUI st (form_reset b (dom u))))
  | (Throw e, st) =>
      showMessage (error_message b e) type_error (mkUI st (dom u))
  | (IllTyped, st) => mkUI st (dom u)
  end.

Definition handleSearch (b : Browser) (u : UI) : UI :=
  let searchId := trim (input_search (dom u)) in
  if falsy searchId then
    mkUI (manager u) (set_search_result html_prompt (dom u))
  else
    match value None (getTask searchId (manager u)) with
    | Some task =>
        let formattedDate := formatDateTime b (datetime task) in
        mkUI (manager u)
             (set_search_result (html_search_hit task formattedDate) (dom u))
    | None =>
        mkUI (manager u) (set_search_result (html_search_miss searchId) (dom u))
    end.

(** [TaskUI.removeTask(id)]; [confirmed] is what [confirm] returns. *)
Definition ui_removeTask (b : Browser) (confirmed : bool) (id : jsstring)
           (u : UI) : UI :=
  let d := show_dialog (confirm_text id) (dom u) in
  if confirmed then
    let r := removeTask id (manager u) in
    if value false r then
      let u1 := showMessage (msg_removed id) type_success
                  (renderTasks b (mkUI (snd r) d)) in
      if jsstring_eqb (input_search (dom u1)) id then
        mkUI (manager u1)
             (set_input_search [] (set_search_result [] (dom u1)))
      else u1
    else showMessage (msg_remove_error id) type_error (mkUI (snd r) d)
  else mkUI (manager u) d.





Definition blank_dom : Dom := mkDom [] [] [] [] [] [] [] [] [] [].

(** A browser for the examples: UTC, dates shown as dd/mm/yyyy, hh:mm,
    and a form that holds the three inputs, empty by default. *)
Definition plain_browser : Browser :=
  mkBrowser UTC_host
            (fun t => match t with
                      | Some v =>
                          Date.pad 2 (Date.DateFromTime v) ++ lit "/"
                          ++ Date.pad 2 (Date.MonthFromTime v + 1) ++ lit "/"
                          ++ Date.pad 4 (Date.YearFromTime v) ++ lit ", "
                          ++ Date.pad 2 (Date.HourFromTime v) ++ lit ":"
                          ++ Date.pad 2 (Date.MinFromTime v)
                      | None => lit "Invalid Date"
                      end)
            (fun _ => []) (Some []) (Some []) (Some []).


(** ** Shapes of the calendar computations *)

Module DateShapes.
Import Date.
Local Open Scope Z_scope.

(** [YearFromTime] as a function of the day number. *)
Definition yearOfDay (d : Z) : Z :=
  let y := 1970 + d * 400 / 146097 in
  if d <? DayFromYear y then y - 1
  else if DayFromYear (y + 1) <=? d then y + 1
  else y.

(** [f] holds of the [n] integers from [d] on. *)
Fixpoint all_from (f : Z -> bool) (n : nat) (d : Z) : bool :=
  match n with
  | O => true
  | S n' => f d && all_from f n' (d + 1)
  end.

(** [MonthFromTime] as a function of the day within the year. *)
Definition monthOfDay (leap d : Z) : Z :=
  Z.of_nat (List.length
    (filter (fun m => monthStart leap m <=? d)
            [1; 2; 3; 4; 5; 6; 7; 8; 9; 10; 11])).

(** The month found for day [d] of a year is the one [d] falls in. *)
Definition month_ok (leap d : Z) : bool :=
  let m := monthOfDay leap d in
  (0 <=? m) && (m <=? 11)
  && (monthStart leap m <=? d) && (d <? monthStart leap (m + 1)).

(** The year as [toISOString] writes it. *)
Definition yearText (y : Z) : jsstring :=
  if (0 <=? y) && (y <=? 9999) then pad 4 y
  else (if y <? 0 then lit "-" else lit "+") ++ pad 6 (Z.abs y).

End DateShapes.

(** * Part II: properties *)

(** ** Strings *)

Lemma jsstring_eqb_eq (a b : jsstring) : jsstring_eqb a b = true <-> a = b.
Proof.
  revert b; induction a as [|x a IH]; intros [|y b]; simpl;
    try (split; [discriminate | congruence]); try tauto.
  rewrite andb_true_iff, N.eqb_eq, IH. split.
  - intros [-> ->]; reflexivity.
  - intros H; injection H; auto.
Qed.

Lemma jsstring_eqb_refl (a : jsstring) : jsstring_eqb a a = true.
Proof. apply jsstring_eqb_eq; reflexivity. Qed.

Lemma jsstring_eqb_neq (a b : jsstring) : jsstring_eqb a b = false <-> a <> b.
Proof.
  rewrite <- jsstring_eqb_eq. destruct (jsstring_eqb a b); split; congruence.
Qed.

Lemma falsy_nil (s : jsstring) : falsy s = true <-> s = [].
Proof. destruct s; simpl; split; congruence. Qed.

(** ** Dates *)

Example toISOString_epoch :
  Date.toISOString 0 = lit "1970-01-01T00:00:00.000Z".
Proof. reflexivity. Qed.

Example toISOString_leap_day :
  Date.toISOString 951868799999 = lit "2000-02-29T23:59:59.999Z".
Proof. reflexivity. Qed.

Example toISOString_before_epoch :
  Date.toISOString (-1) = lit "1969-12-31T23:59:59.999Z".
Proof. reflexivity. Qed.

Example toISOString_latest :
  Date.toISOString 8640000000000000 = lit "+275760-09-13T00:00:00.000Z".
Proof. reflexivity. Qed.

Example parse_local_form :
  Date.parse UTC_host (lit "2025-01-02T10:00") = Some 1735812000000%Z.
Proof. reflexivity. Qed.

Example parse_offset_form :
  Date.parse UTC_host (lit "2025-07-15T14:30:15+02:00") = Some 1752582615000%Z.
Proof. reflexivity. Qed.

Example parse_not_a_date : Date.parse UTC_host (lit "abc") = None.
Proof. reflexivity. Qed.

(** ** The Map operations *)

Section MapFacts.
Context {V : Type}.
Implicit Types (m : Map V) (k : jsstring) (v : V).

Lemma Map_has_In k m : Map_has k m = true <-> In k (Map_keys m).
Proof.
  induction m as [|[k' v'] r IH]; simpl.
  - split; [discriminate | tauto].
  - destruct (jsstring_eqb k' k) eqn:E.
    + apply jsstring_eqb_eq in E. tauto.
    + apply jsstring_eqb_neq in E. rewrite IH. tauto.
Qed.

Lemma Map_has_false_In k m : Map_has k m = false <-> ~ In k (Map_keys m).
Proof.
  rewrite <- Map_has_In. destruct (Map_has k m); split; congruence.
Qed.

Lemma Map_get_has k m : Map_get k m = None <-> Map_has k m = false.
Proof.
  induction m as [|[k' v'] r IH]; simpl; [tauto|].
  destruct (jsstring_eqb k' k); [split; discriminate | exact IH].
Qed.

Lemma Map_set_absent k v m :
  Map_has k m = false -> Map_set k v m = m ++ [(k, v)].
Proof.
  induction m as [|[k' v'] r IH]; simpl; [reflexivity|].
  destruct (jsstring_eqb k' k); [discriminate|].
  intros H. rewrite (IH H). reflexivity.
Qed.

Lemma Map_keys_set k v m :
  Map_keys (Map_set k v m)
  = if Map_has k m then Map_keys m else Map_keys m ++ [k].
Proof.
  induction m as [|[k' v'] r IH]; simpl; [reflexivity|].
  destruct (jsstring_eqb k' k) eqn:E; simpl; [reflexivity|].
  rewrite IH. destruct (Map_has k r); reflexivity.
Qed.

Lemma Map_get_set_same k v m : Map_get k (Map_set k v m) = Some v.
Proof.
  induction m as [|[k' v'] r IH]; simpl.
  - rewrite jsstring_eqb_refl. reflexivity.
  - destruct (jsstring_eqb k' k) eqn:E; simpl; rewrite E; auto.
Qed.

Lemma Map_get_set_other k k' v m :
  k' <> k -> Map_get k' (Map_set k v m) = Map_get k' m.
Proof.
  intros Hne. induction m as [|[k0 v0] r IH]; simpl.
  - apply jsstring_eqb_neq in Hne.
    destruct (jsstring_eqb k k') eqn:E; [|reflexivity].
    apply jsstring_eqb_eq in E. subst. rewrite jsstring_eqb_refl in Hne.
    discriminate.
  - destruct (jsstring_eqb k0 k) eqn:E; simpl.
    + apply jsstring_eqb_eq in E. subst k0.
      destruct (jsstring_eqb k k') eqn:E'; [|reflexivity].
      apply jsstring_eqb_eq in E'. congruence.
    + rewrite IH. reflexivity.
Qed.

Lemma Map_wf_set k v m : Map_wf m -> Map_wf (Map_set k v m).
Proof.
  unfold Map_wf. rewrite Map_keys_set.
  destruct (Map_has k m) eqn:E; [auto|].
  intros H. apply Map_has_false_In in E.
  apply NoDup_rev in H. rewrite <- (rev_involutive (_ ++ _)).
  apply NoDup_rev. rewrite rev_app_distr. simpl. constructor; [|exact H].
  rewrite <- in_rev. exact E.
Qed.

Lemma Map_delete_absent k m :
  Map_has k m = false -> Map_delete k m = (false, m).
Proof.
  induction m as [|[k' v'] r IH]; simpl; [reflexivity|].
  destruct (jsstring_eqb k' k); [discriminate|].
  intros H. rewrite (IH H). reflexivity.
Qed.

Lemma Map_delete_present k m :
  Map_has k m = true ->
  fst (Map_delete k m) = true
  /\ S (Map_size (snd (Map_delete k m))) = Map_size m.
Proof.
  induction m as [|[k' v'] r IH]; simpl; [discriminate|].
  destruct (jsstring_eqb k' k); [auto|].
  intros H. destruct (IH H) as [H1 H2].
  destruct (Map_delete k r) as [d r']. simpl in *. unfold Map_size in *.
  simpl. auto.
Qed.

(** Deleting drops the first entry of the key, and on a Map there is no
    other. *)
Lemma Map_delete_filter k m :
  Map_wf m ->
  snd (Map_delete k m)
  = filter (fun kv => negb (jsstring_eqb (fst kv) k)) m.
Proof.
  unfold Map_wf. induction m as [|[k' v'] r IH]; simpl; [reflexivity|].
  intros H. inversion H as [|? ? Hnin Hnd]; subst.
  destruct (jsstring_eqb k' k) eqn:E; simpl.
  - apply jsstring_eqb_eq in E. subst k'.
    apply Map_has_false_In in Hnin.
    clear -Hnin. induction r as [|[k1 v1] r IH]; simpl; [reflexivity|].
    simpl in Hnin. destruct (jsstring_eqb k1 k); [discriminate|].
    simpl. rewrite <- (IH Hnin). reflexivity.
  - specialize (IH Hnd). destruct (Map_delete k r) as [d r']. simpl in *.
    rewrite IH. reflexivity.
Qed.

Lemma Map_has_filter_out k m :
  Map_has k (filter (fun kv => negb (jsstring_eqb (fst kv) k)) m) = false.
Proof.
  induction m as [|[k' v'] r IH]; simpl; [reflexivity|].
  destruct (jsstring_eqb k' k) eqn:E; simpl; [exact IH|].
  rewrite E. exact IH.
Qed.

Lemma Map_get_filter_other k k' m :
  k' <> k ->
  Map_get k' (filter (fun kv => negb (jsstring_eqb (fst kv) k)) m)
  = Map_get k' m.
Proof.
  intros Hne. induction m as [|[k0 v0] r IH]; simpl; [reflexivity|].
  destruct (jsstring_eqb k0 k) eqn:E; simpl.
  - apply jsstring_eqb_eq in E. subst k0.
    destruct (jsstring_eqb k k') eqn:E'; [|exact IH].
    apply jsstring_eqb_eq in E'. congruence.
  - rewrite IH. reflexivity.
Qed.

Lemma Map_wf_filter (f : jsstring * V -> bool) m :
  Map_wf m -> Map_wf (filter f m).
Proof.
  unfold Map_wf. induction m as [|[k v] r IH]; simpl; [auto|].
  intros H. inversion H as [|? ? Hnin Hnd]; subst.
  destruct (f (k, v)); simpl; [|auto].
  constructor; [|auto].
  intros Hin. apply Hnin. unfold Map_keys in *.
  apply in_map_iff in Hin. destruct Hin as [kv [<- Hkv]].
  apply filter_In in Hkv. apply in_map. tauto.
Qed.

Lemma Map_from_acc (es acc : list (jsstring * V)) :
  NoDup (Map_keys (acc ++ es)) ->
  fold_left (fun m kv => Map_set (fst kv) (snd kv) m) es acc = acc ++ es.
Proof.
  revert acc. induction es as [|[k v] es IH]; intros acc H; simpl.
  - rewrite app_nil_r. reflexivity.
  - assert (Hk : Map_has k acc = false).
    { apply Map_has_false_In. unfold Map_keys in *.
      rewrite map_app in H. simpl in H.
      apply NoDup_remove_2 in H. intros Hin. apply H.
      apply in_or_app. auto. }
    rewrite (Map_set_absent _ _ _ Hk).
    rewrite IH; rewrite <- app_assoc; simpl; [reflexivity | exact H].
Qed.

(** [new Map(m.entries())] is [m] again. *)
Lemma Map_from_entries m : Map_wf m -> Map_from (Map_entries m) = m.
Proof. intros H. unfold Map_from. rewrite Map_from_acc; auto. Qed.
End MapFacts.

(** ** JSON: what [serialize] writes, [parse] reads back *)

Module JSONFacts.
Import JSON.

Lemma hexValue_hexDigit (d : N) : d < 16 -> hexValue (hexDigit d) = Some d.
Proof.
  intros H.
  assert (Hd : In d [0;1;2;3;4;5;6;7;8;9;10;11;12;13;14;15]).
  { simpl. lia. }
  simpl in Hd.
  repeat (destruct Hd as [<-|Hd]; [reflexivity|]). contradiction.
Qed.

Lemma hex4_unicodeEscape (c : N) :
  c < 65536 ->
  hex4 (hexDigit (c / 4096 mod 16)) (hexDigit (c / 256 mod 16))
       (hexDigit (c / 16 mod 16)) (hexDigit (c mod 16)) = Some c.
Proof.
  intros H. unfold hex4.
  rewrite !hexValue_hexDigit by (apply N.mod_lt; discriminate).
  f_equal.
  assert (E4 : c / 4096 mod 16 = c / 4096).
  { apply N.mod_small. apply N.Div0.div_lt_upper_bound. lia. }
  rewrite E4. clear E4.
  change 4096 with (16 * (16 * 16)). change 256 with (16 * 16).
  rewrite <- !N.Div0.div_div.
  pose proof (N.div_mod c 16 ltac:(discriminate)) as E1.
  pose proof (N.div_mod (c / 16) 16 ltac:(discriminate)) as E2.
  pose proof (N.div_mod (c / 16 / 16) 16 ltac:(discriminate)) as E3.
  lia.
Qed.

Lemma scan_chars_plain (c : N) (tail : jsstring) :
  c <> 34 -> c <> 92 -> 32 <= c ->
  scan_chars (c :: tail) = cons_fst c (scan_chars tail).
Proof.
  intros H1 H2 H3. cbn [scan_chars].
  apply N.eqb_neq in H1, H2. rewrite H1, H2.
  destruct (N.ltb_spec c 32); [lia | reflexivity].
Qed.

Lemma scan_chars_unicodeEscape (c : N) (tail : jsstring) :
  c < 65536 ->
  scan_chars (unicodeEscape c ++ tail) = cons_fst c (scan_chars tail).
Proof.
  intros H.
  change (scan_chars (unicodeEscape c ++ tail)) with
      (match hex4 (hexDigit (c / 4096 mod 16)) (hexDigit (c / 256 mod 16))
                     (hexDigit (c / 16 mod 16)) (hexDigit (c mod 16)) with
          | Some u => cons_fst u (scan_chars tail)
          | None => None
          end).
  rewrite (hex4_unicodeEscape c H). reflexivity.
Qed.

(** One quoted unit reads back as the unit. *)
Lemma scan_chars_quoteUnit (c : N) (tail : jsstring) :
  scan_chars (quoteUnit c ++ tail) = cons_fst c (scan_chars tail).
Proof.
  unfold quoteUnit.
  destruct (N.eqb_spec c 8) as [->|N8]; [reflexivity|].
  destruct (N.eqb_spec c 9) as [->|N9]; [reflexivity|].
  destruct (N.eqb_spec c 10) as [->|N10]; [reflexivity|].
  destruct (N.eqb_spec c 12) as [->|N12]; [reflexivity|].
  destruct (N.eqb_spec c 13) as [->|N13]; [reflexivity|].
  destruct (N.eqb_spec c 34) as [->|N34]; [reflexivity|].
  destruct (N.eqb_spec c 92) as [->|N92]; [reflexivity|].
  destruct ((c <? 32) || isLeadingSurrogate c || isTrailingSurrogate c) eqn:E.
  - apply scan_chars_unicodeEscape.
    unfold isLeadingSurrogate, isTrailingSurrogate in E.
    rewrite !orb_true_iff, !andb_true_iff, N.ltb_lt, !N.leb_le in E. lia.
  - rewrite !orb_false_iff, N.ltb_ge in E.
    apply scan_chars_plain; tauto.
Qed.

Lemma scan_chars_quoteChars_len (n : nat) :
  forall s rest,
    (length s <= n)%nat ->
    scan_chars (quoteChars s ++ 34 :: rest) = Some (s, rest).
Proof.
  induction n as [|n IH]; intros s rest Hlen.
  - destruct s; [reflexivity | simpl in Hlen; lia].
  - destruct s as [|c [|d r]]; [reflexivity | |].
    + cbn [quoteChars]. rewrite scan_chars_quoteUnit. reflexivity.
    + change (quoteChars (c :: d :: r)) with
          (if isLeadingSurrogate c && isTrailingSurrogate d
              then c :: d :: quoteChars r
              else quoteUnit c ++ quoteChars (d :: r)).
      destruct (isLeadingSurrogate c && isTrailingSurrogate d) eqn:E.
      * apply andb_true_iff in E. destruct E as [Ec Ed].
        unfold isLeadingSurrogate in Ec. unfold isTrailingSurrogate in Ed.
        rewrite andb_true_iff, !N.leb_le in Ec, Ed.
        cbn [app]. rewrite scan_chars_plain by lia.
        rewrite scan_chars_plain by lia.
        rewrite IH by (simpl in Hlen |- *; lia). reflexivity.
      * rewrite <- app_assoc, scan_chars_quoteUnit.
        rewrite IH by (simpl in Hlen |- *; lia). reflexivity.
Qed.

(** A quoted string reads back as the string. *)
Lemma scan_chars_quoteChars (s rest : jsstring) :
  scan_chars (quoteChars s ++ 34 :: rest) = Some (s, rest).
Proof. apply (scan_chars_quoteChars_len (length s)). apply le_n. Qed.

Lemma quote_app (s rest : jsstring) :
  quote s ++ rest = 34 :: quoteChars s ++ 34 :: rest.
Proof. unfold quote. cbn [app]. rewrite <- app_assoc. reflexivity. Qed.

Lemma opens_serialize (v : json) : num_free v = true -> opens (serialize v).
Proof.
  destruct v as [|[|]|lexeme|s|l|ms]; intros H; try discriminate;
    cbn [serialize lit quote app];
    eexists; eexists; (split; [reflexivity|]);
    (split; [reflexivity|]); split; discriminate.
Qed.

Lemma opens_app (s tail : jsstring) : opens s -> opens (s ++ tail).
Proof.
  intros (c & tl & -> & H). exists c, (tl ++ tail). auto.
Qed.

Lemma skip_ws_opens (s : jsstring) : opens s -> skip_ws s = s.
Proof.
  intros (c & tl & -> & H & _). cbn [skip_ws]. rewrite H. reflexivity.
Qed.

(** One step of each of the three scanners. *)
Lemma scan_value_string (f : nat) (s : jsstring) :
  scan_value (S f) (34 :: s)
  = match scan_chars s with
    | Some (str, rest) => Some (JString str, rest)
    | None => None
    end.
Proof. reflexivity. Qed.

Lemma scan_value_array (f : nat) (s : jsstring) :
  opens s ->
  scan_value (S f) (91 :: s)
  = match scan_items f s with
    | Some (l, rest) => Some (JArray l, rest)
    | None => None
    end.
Proof.
  intros (c & tl & -> & Hws & H93 & _).
  apply N.eqb_neq in H93.
  change (scan_value (S f) (91 :: c :: tl)) with
      (match skip_ws (c :: tl) with
          | [] => None
          | c' :: r' =>
              if c' =? 93 then Some (JArray [], r')
              else match scan_items f (c :: tl) with
                   | Some (l, rest) => Some (JArray l, rest)
                   | None => None
                   end
          end).
  cbn [skip_ws]. rewrite Hws, H93. reflexivity.
Qed.

Lemma scan_value_object (f : nat) (s : jsstring) :
  opens s ->
  scan_value (S f) (123 :: s)
  = match scan_members f s with
    | Some (ms, rest) => Some (JObject ms, rest)
    | None => None
    end.
Proof.
  intros (c & tl & -> & Hws & _ & H125).
  apply N.eqb_neq in H125.
  change (scan_value (S f) (123 :: c :: tl)) with
      (match skip_ws (c :: tl) with
          | [] => None
          | c' :: r' =>
              if c' =? 125 then Some (JObject [], r')
              else match scan_members f (c :: tl) with
                   | Some (ms, rest) => Some (JObject ms, rest)
                   | None => None
                   end
          end).
  cbn [skip_ws]. rewrite Hws, H125. reflexivity.
Qed.

Lemma scan_items_step (f : nat) (s : jsstring) :
  scan_items (S f) s
  = match scan_value f s with
    | None => None
    | Some (x, r) =>
        match skip_ws r with
        | [] => None
        | c :: r' =>
            if c =? 93 then Some ([x], r')
            else if c =? 44 then
              match scan_items f r' with
              | Some (xs, rest) => Some (x :: xs, rest)
              | None => None
              end
            else None
        end
    end.
Proof. reflexivity. Qed.

Lemma scan_members_step (f : nat) (s : jsstring) :
  scan_members (S f) (34 :: s)
  = match scan_chars s with
    | None => None
    | Some (k, r1) =>
        match skip_ws r1 with
        | [] => None
        | c1 :: r2 =>
            if c1 =? 58 then
              match scan_value f r2 with
              | None => None
              | Some (x, r3) =>
                  match skip_ws r3 with
                  | [] => None
                  | c :: r' =>
                      if c =? 125 then Some ([(k, x)], r')
                      else if c =? 44 then
                        match scan_members f r' with
                        | Some (ms, rest) => Some ((k, x) :: ms, rest)
                        | None => None
                        end
                      else None
                  end
              end
            else None
        end
    end.
Proof. reflexivity. Qed.

Lemma scan_items_join (l : list json) :
  Forall reads_back l ->
  forallb num_free l = true ->
  l <> [] ->
  forall f rest,
    (items_size l <= f)%nat ->
    scan_items f (join (map serialize l) ++ 93 :: rest) = Some (l, rest).
Proof.
  induction l as [|x r IH]; intros Hall Hnf Hne f rest Hf; [congruence|].
  inversion Hall as [|? ? Hx Hr]; subst.
  cbn [forallb] in Hnf. apply andb_true_iff in Hnf. destruct Hnf as [Nx Nr].
  cbn [items_size fold_right] in Hf. fold (items_size r) in Hf.
  destruct f as [|f]; [lia|].
  rewrite scan_items_step.
  destruct r as [|y r'].
  - cbn [map join]. rewrite (Hx Nx) by lia. reflexivity.
  - change (join (map serialize (x :: y :: r'))) with
        (serialize x ++ [44] ++ join (map serialize (y :: r'))).
    rewrite <- !app_assoc. rewrite (Hx Nx) by lia.
    cbn [app skip_ws isJSONWhiteSpace N.eqb Pos.eqb orb].
    rewrite IH; [reflexivity | exact Hr | exact Nr | discriminate | lia].
Qed.

Lemma scan_members_join (ms : list (jsstring * json)) :
  Forall (fun kv => reads_back (snd kv)) ms ->
  forallb (fun kv => match kv with (_, x) => num_free x end) ms = true ->
  ms <> [] ->
  forall f rest,
    (members_size ms <= f)%nat ->
    scan_members f (join (map member_text ms) ++ 125 :: rest)
    = Some (ms, rest).
Proof.
  induction ms as [|[k x] r IH]; intros Hall Hnf Hne f rest Hf; [congruence|].
  inversion Hall as [|? ? Hx Hr]; subst. cbn [snd] in Hx.
  cbn [forallb] in Hnf. apply andb_true_iff in Hnf. destruct Hnf as [Nx Nr].
  cbn [members_size fold_right] in Hf. fold (members_size r) in Hf.
  destruct f as [|f]; [lia|].
  destruct r as [|kv r'].
  - cbn [map join member_text]. rewrite <- !app_assoc, quote_app.
    rewrite scan_members_step, scan_chars_quoteChars.
    cbn [app skip_ws isJSONWhiteSpace N.eqb Pos.eqb orb].
    rewrite (Hx Nx) by lia. reflexivity.
  - change (join (map member_text ((k, x) :: kv :: r'))) with
        (member_text (k, x) ++ [44] ++ join (map member_text (kv :: r'))).
    cbn [member_text]. rewrite <- !app_assoc, quote_app.
    rewrite scan_members_step, scan_chars_quoteChars.
    cbn [app skip_ws isJSONWhiteSpace N.eqb Pos.eqb orb].
    rewrite (Hx Nx) by lia.
    cbn [app skip_ws isJSONWhiteSpace N.eqb Pos.eqb orb].
    rewrite IH; [reflexivity | exact Hr | exact Nr | discriminate | lia].
Qed.

Lemma opens_join (A : Type) (g : A -> jsstring) (x : A) (r : list A)
      (tail : jsstring) :
  opens (g x) -> opens (join (map g (x :: r)) ++ tail).
Proof.
  intros H. apply opens_app. cbn [map join].
  destruct (map g r); [exact H | apply opens_app; exact H].
Qed.

(** Every value without numbers reads back, the rest of the text left
    as it is. *)
Theorem scan_value_serialize (v : json) : reads_back v.
Proof.
  induction v as [|b|lexeme|s|l IH|ms IH] using json_ind;
    intros Hnf f rest Hf; (destruct f as [|f]; [cbn in Hf; lia|]).
  - reflexivity.
  - destruct b; reflexivity.
  - discriminate.
  - cbn [serialize]. rewrite quote_app, scan_value_string.
    rewrite scan_chars_quoteChars. reflexivity.
  - cbn [serialize num_free jsize] in *. fold (items_size l) in Hf.
    cbn [app]. rewrite <- app_assoc. cbn [app].
    destruct l as [|x r]; [reflexivity|].
    rewrite scan_value_array.
    + rewrite scan_items_join; [reflexivity | exact IH | exact Hnf
                                | discriminate | lia].
    + apply opens_join. apply opens_serialize.
      cbn [forallb] in Hnf. apply andb_true_iff in Hnf. tauto.
  - cbn [serialize num_free jsize] in *. fold (members_size ms) in Hf.
    fold member_text.
    cbn [app]. rewrite <- app_assoc. cbn [app].
    destruct ms as [|[k x] r]; [reflexivity|].
    rewrite scan_value_object.
    + rewrite scan_members_join; [reflexivity | exact IH | exact Hnf
                                  | discriminate | lia].
    + apply opens_join. cbn [member_text quote app].
      eexists; eexists. split; [reflexivity|].
      split; [reflexivity|]. split; discriminate.
Qed.

(** The text is at least as long as the fuel the value needs. *)
Lemma join_size_bound (A : Type) (sz : A -> nat) (g : A -> jsstring)
      (l : list A) :
  Forall (fun x => (sz x <= length (g x))%nat) l ->
  (fold_right (fun x n => S (sz x + n)) O l
   <= S (length (join (map g l))))%nat.
Proof.
  induction l as [|x r IH]; intros H; [simpl; lia|].
  inversion H as [|? ? Hx Hr]; subst. specialize (IH Hr).
  cbn [fold_right map join].
  destruct r as [|y r'].
  - cbn [map fold_right]. lia.
  - cbn [map] in *. rewrite !length_app. cbn [length]. lia.
Qed.

Lemma members_size_snd (ms : list (jsstring * json)) :
  members_size ms = fold_right (fun kv n => S (jsize (snd kv) + n)) O ms.
Proof.
  induction ms as [|[k x] r IH]; [reflexivity|].
  cbn [members_size fold_right snd]. fold (members_size r).
  rewrite IH. reflexivity.
Qed.

Lemma jsize_le_length (v : json) :
  num_free v = true -> (jsize v <= length (serialize v))%nat.
Proof.
  induction v as [|b|lexeme|s|l IH|ms IH] using json_ind; intros Hnf.
  - cbn. lia.
  - destruct b; cbn; lia.
  - discriminate.
  - cbn [serialize jsize]. unfold quote. rewrite !length_app.
    cbn [length]. lia.
  - cbn [serialize jsize num_free] in *.
    rewrite !length_app. cbn [length].
    pose proof (join_size_bound json jsize serialize l) as B.
    rewrite Forall_forall in IH. rewrite forallb_forall in Hnf.
    rewrite Forall_forall in B. specialize (B (fun x Hx => IH x Hx (Hnf x Hx))).
    lia.
  - change (serialize (JObject ms)) with
        ([123] ++ join (map member_text ms) ++ [125]).
    cbn [jsize num_free] in *.
    fold (members_size ms). rewrite members_size_snd.
    rewrite !length_app. cbn [length].
    pose proof (join_size_bound _ (fun kv => jsize (snd kv)) member_text ms)
      as B.
    rewrite Forall_forall in IH. rewrite forallb_forall in Hnf.
    rewrite Forall_forall in B.
    assert (Hms : forall kv, In kv ms ->
                    (jsize (snd kv) <= length (member_text kv))%nat).
    { intros [k x] Hin. specialize (IH _ Hin (Hnf _ Hin)).
      cbn [snd member_text] in *. rewrite !length_app. lia. }
    specialize (B Hms). lia.
Qed.

(** [JSON.parse(JSON.stringify(v))] is [v]. *)
Theorem parse_serialize (v : json) :
  num_free v = true -> parse (serialize v) = Some v.
Proof.
  intros Hnf. unfold parse.
  pose proof (jsize_le_length v Hnf) as Hlen.
  pose proof (scan_value_serialize v Hnf
                (S (2 * length (serialize v))) [] ltac:(lia)) as H.
  rewrite app_nil_r in H. rewrite H. reflexivity.
Qed.
End JSONFacts.

(** ** Persisting *)

(** [saveToLocalStorage] never throws. *)
Lemma saveToLocalStorage_saved (st : State) :
  saveToLocalStorage st = (Normal tt, saved st).
Proof.
  unfold saveToLocalStorage, try_catch, bind, get_tasks, setItem, saved,
    console_error, log, Map_entries.
  simpl. destruct (_ <=? _)%nat; simpl; [reflexivity|].
  rewrite <- app_assoc. reflexivity.
Qed.

Lemma tasks_saved (st : State) : tasks (saved st) = tasks st.
Proof. unfold saved. destruct (_ <=? _)%nat; reflexivity. Qed.

Lemma saved_fits (st : State) :
  fits st = true ->
  Map_get STORAGE_KEY (items (localStorage (saved st)))
  = Some (JSON_stringify (tasks st)).
Proof.
  unfold fits, saved. intros ->. simpl. apply Map_get_set_same.
Qed.

(** ** addTask *)

Lemma blank_true (id description datetime : jsstring) :
  blank id description datetime = true
  <-> trim id = [] \/ trim description = [] \/ trim datetime = [].
Proof.
  unfold blank. rewrite !orb_true_iff, !falsy_nil. tauto.
Qed.

(** The three ways through [addTask]. *)
Lemma addTask_unfold (now : Z) (id description datetime : jsstring) (st : State) :
  addTask now id description datetime st
  = if Map_has id (tasks st) then (Throw (DuplicateKey id), st)
    else if blank id description datetime then (Throw InvalidInput, st)
    else (Normal true,
          saved (mkState
                   (Map_set id (mkTask (trim id) (trim description) datetime
                                       (DateObject now)) (tasks st))
                   (localStorage st) (trace st))).
Proof.
  unfold addTask, bind, get_tasks, blank. simpl.
  destruct (Map_has id (tasks st)); [reflexivity|].
  destruct (falsy (trim id) || falsy (trim description) || falsy (trim datetime));
    [reflexivity|].
  unfold set_tasks. rewrite saveToLocalStorage_saved. reflexivity.
Qed.

(** What a successful [addTask] tells. *)
Lemma addTask_Normal (now : Z) (id description datetime : jsstring)
      (st : State) (b : bool) :
  fst (addTask now id description datetime st) = Normal b ->
  b = true
  /\ Map_has id (tasks st) = false
  /\ blank id description datetime = false
  /\ tasks (snd (addTask now id description datetime st))
     = tasks st ++ [(id, mkTask (trim id) (trim description) datetime
                                (DateObject now))].
Proof.
  rewrite addTask_unfold.
  destruct (Map_has id (tasks st)) eqn:Hhas; [discriminate|].
  destruct (blank id description datetime); [discriminate|].
  cbn [fst snd]. intros H. injection H as <-.
  rewrite tasks_saved. cbn [tasks]. rewrite Map_set_absent by exact Hhas. auto.
Qed.

(** C3: when no task is stored under the key [id] and one of the three
    fields is empty after trimming, [addTask] throws the "Todos os campos
    são obrigatórios!" error (InvalidInput) and inserts nothing: the state,
    so the collection, the count and the storage, is what it was. *)
Theorem addTask_blank_field_rejected
        (now : Z) (id description datetime : jsstring) (st : State) :
  Map_has id (tasks st) = false ->
  trim id = [] \/ trim description = [] \/ trim datetime = [] ->
  addTask now id description datetime st = (Throw InvalidInput, st)
  /\ tasks (snd (addTask now id description datetime st)) = tasks st
  /\ fst (getTaskCount (snd (addTask now id description datetime st)))
     = fst (getTaskCount st).
Proof.
  intros Hhas Hblank. apply blank_true in Hblank.
  rewrite addTask_unfold, Hhas, Hblank. auto.
Qed.

Lemma addTask_blank_field_rejected_witness :
  addTask 0 (lit "T1") (lit "   ") (lit "2025-07-15T14:30") (fresh_state 100)
  = (Throw InvalidInput, fresh_state 100).
Proof.
  apply (addTask_blank_field_rejected 0 (lit "T1") (lit "   ")
           (lit "2025-07-15T14:30") (fresh_state 100)).
  - reflexivity.
  - right; left; reflexivity.
Defined.

(** C8: for a valid input (a free key, no blank field) [addTask] returns
    true and the new task is in the collection whether or not the write to
    storage goes through; when the write throws, the storage keeps its old
    content and the error is logged to the console. *)
Theorem addTask_keeps_task_when_persist_fails
        (now : Z) (id description datetime : jsstring) (st : State) :
  Map_has id (tasks st) = false ->
  trim id <> [] -> trim description <> [] -> trim datetime <> [] ->
  let newTask := mkTask (trim id) (trim description) datetime (DateObject now) in
  let text := JSON_stringify (tasks st ++ [(id, newTask)]) in
  let r := addTask now id description datetime st in
  fst r = Normal true
  /\ tasks (snd r) = tasks st ++ [(id, newTask)]
  /\ fst (getTask id (snd r)) = Normal (Some newTask)
  /\ if (Storage_usage (Map_set STORAGE_KEY text (items (localStorage st)))
         <=? quota (localStorage st))%nat
     then Map_get STORAGE_KEY (items (localStorage (snd r))) = Some text
     else localStorage (snd r) = localStorage st
          /\ trace (snd r)
             = trace st
               ++ [SetItem STORAGE_KEY text (Some QuotaExceededError);
                   ConsoleError (lit "Erro ao salvar no localStorage:")
                                QuotaExceededError].
Proof.
  intros Hhas H1 H2 H3 newTask text r. subst r.
  assert (Hb : blank id description datetime = false).
  { destruct (blank id description datetime) eqn:E; [|reflexivity].
    apply blank_true in E. tauto. }
  rewrite addTask_unfold, Hhas, Hb. cbn [fst snd].
  rewrite tasks_saved. cbn [tasks].
  rewrite (Map_set_absent _ _ _ Hhas). fold newTask.
  split; [reflexivity|]. split; [reflexivity|]. split.
  - unfold getTask, bind, get_tasks, ret. cbn [fst snd].
    rewrite tasks_saved. cbn [tasks].
    rewrite <- (Map_set_absent _ _ _ Hhas). rewrite Map_get_set_same.
    reflexivity.
  - unfold saved. cbn [tasks localStorage]. fold text.
    destruct (_ <=? _)%nat; cbn [tasks localStorage items trace].
    + apply Map_get_set_same.
    + auto.
Qed.

Lemma addTask_keeps_task_when_persist_fails_witness :
  let r := addTask 1752589800000 (lit "T1") (lit "Write report")
                   (lit "2025-07-15T14:30") (fresh_state 0) in
  fst r = Normal true
  /\ fst (getTask (lit "T1") (snd r))
     = Normal (Some (mkTask (lit "T1") (lit "Write report")
                            (lit "2025-07-15T14:30")
                            (DateObject 1752589800000)))
  /\ items (localStorage (snd r)) = [].
Proof.
  pose proof (addTask_keeps_task_when_persist_fails 1752589800000 (lit "T1")
                (lit "Write report") (lit "2025-07-15T14:30") (fresh_state 0))
    as H.
  destruct H as (Hr & _ & Hg & Hs);
    [reflexivity | discriminate | discriminate | discriminate |].
  split; [exact Hr|]. split; [exact Hg|].
  vm_compute in Hs. destruct Hs as [Hs _].
  change (items (localStorage (fresh_state 0))) with (@nil (jsstring * jsstring)) in *.
  vm_compute. reflexivity.
Defined.

(** ** removeTask *)

Lemma removeTask_unfold (id : jsstring) (st : State) :
  removeTask id st
  = if Map_has id (tasks st)
    then (Normal true,
          saved (mkState (snd (Map_delete id (tasks st)))
                         (localStorage st) (trace st)))
    else (Normal false, st).
Proof.
  unfold removeTask, bind, get_tasks. cbn [fst snd].
  destruct (Map_has id (tasks st)) eqn:Hhas.
  - destruct (Map_delete_present _ _ Hhas) as [Hd _].
    destruct (Map_delete id (tasks st)) as [d m']. cbn [fst snd] in *.
    subst d. unfold set_tasks. rewrite saveToLocalStorage_saved. reflexivity.
  - rewrite (Map_delete_absent _ _ Hhas). destruct st; reflexivity.
Qed.

(** C6: for an [id] that is not a key of the collection, [removeTask]
    returns false and changes nothing: the collection and the count are the
    same, [setItem] is not called and the storage is not rewritten. *)
Theorem removeTask_absent_noop (id : jsstring) (st : State) :
  Map_has id (tasks st) = false ->
  removeTask id st = (Normal false, st)
  /\ fst (getTaskCount (snd (removeTask id st))) = fst (getTaskCount st)
  /\ localStorage (snd (removeTask id st)) = localStorage st
  /\ trace (snd (removeTask id st)) = trace st.
Proof.
  intros Hhas. rewrite removeTask_unfold, Hhas. auto.
Qed.

Lemma removeTask_absent_noop_witness :
  let st := snd (addTask 0 (lit "T1") (lit "Write report")
                         (lit "2025-07-15T14:30") (fresh_state 1000)) in
  removeTask (lit "T2") st = (Normal false, st).
Proof.
  intros st.
  apply (removeTask_absent_noop (lit "T2") st). reflexivity.
Defined.

(** C7: for an [id] that is a key of the collection, [removeTask] returns
    true, the count goes down by exactly one, [hasTask id] is false and
    [getTask id] is undefined afterwards, and every other entry is as it
    was, in the same order. *)
Theorem removeTask_present (id : jsstring) (st : State) :
  Map_wf (tasks st) ->
  Map_has id (tasks st) = true ->
  let r := removeTask id st in
  fst r = Normal true
  /\ S (value O (getTaskCount (snd r))) = value O (getTaskCount st)
  /\ fst (hasTask id (snd r)) = Normal false
  /\ fst (getTask id (snd r)) = Normal None
  /\ (forall k, k <> id -> fst (getTask k (snd r)) = fst (getTask k st))
  /\ tasks (snd r)
     = filter (fun kv => negb (jsstring_eqb (fst kv) id)) (tasks st).
Proof.
  intros Hwf Hhas r. subst r.
  rewrite removeTask_unfold, Hhas. cbn [fst snd].
  unfold getTaskCount, hasTask, getTask, bind, get_tasks, ret, value.
  cbn [fst snd]. rewrite tasks_saved. cbn [tasks].
  destruct (Map_delete_present _ _ Hhas) as [_ Hsize].
  rewrite (Map_delete_filter _ _ Hwf) in *.
  split; [reflexivity|]. split; [exact Hsize|].
  split; [rewrite Map_has_filter_out; reflexivity|].
  split.
  - f_equal. apply Map_get_has. apply Map_has_filter_out.
  - split; [|reflexivity].
    intros k Hk. rewrite (Map_get_filter_other _ _ _ Hk). reflexivity.
Qed.

Lemma removeTask_present_witness :
  let st := snd (addTask 0 (lit "T1") (lit "Write report")
                         (lit "2025-07-15T14:30") (fresh_state 1000)) in
  fst (removeTask (lit "T1") st) = Normal true
  /\ fst (getTask (lit "T1") (snd (removeTask (lit "T1") st))) = Normal None.
Proof.
  intros st.
  destruct (removeTask_present (lit "T1") st) as (H1 & _ & _ & H4 & _).
  - vm_compute. repeat constructor. simpl. tauto.
  - reflexivity.
  - split; [exact H1 | exact H4].
Defined.

(** ** clearAllTasks *)

(** C9: after [clearAllTasks] the count is 0 and [getAllTasks] returns the
    empty array; [setItem] is called once with the text of the empty
    collection, whatever the collection was, and the text is what the slot
    holds when the write fits the quota. *)
Theorem clearAllTasks_empties_and_persists (host : Host) (st : State) :
  let r := clearAllTasks st in
  fst r = Normal tt
  /\ fst (getTaskCount (snd r)) = Normal O
  /\ fst (getAllTasks host (snd r)) = Normal []
  /\ JSON_stringify [] = lit "[]"
  /\ if (Storage_usage (Map_set STORAGE_KEY (lit "[]") (items (localStorage st)))
         <=? quota (localStorage st))%nat
     then Map_get STORAGE_KEY (items (localStorage (snd r))) = Some (lit "[]")
          /\ trace (snd r) = trace st ++ [SetItem STORAGE_KEY (lit "[]") None]
     else localStorage (snd r) = localStorage st
          /\ trace (snd r)
             = trace st
               ++ [SetItem STORAGE_KEY (lit "[]") (Some QuotaExceededError);
                   ConsoleError (lit "Erro ao salvar no localStorage:")
                                QuotaExceededError].
Proof.
  intros r. subst r.
  unfold clearAllTasks, bind, set_tasks. rewrite saveToLocalStorage_saved.
  cbn [fst snd].
  unfold getTaskCount, getAllTasks, bind, get_tasks, ret. cbn [fst snd].
  rewrite tasks_saved. cbn [tasks].
  split; [reflexivity|]. split; [reflexivity|]. split; [reflexivity|].
  split; [reflexivity|].
  unfold saved. cbn [tasks localStorage trace].
  change (JSON_stringify []) with (lit "[]").
  destruct (_ <=? _)%nat; cbn [tasks localStorage items trace].
  - split; [apply Map_get_set_same | reflexivity].
  - auto.
Qed.

(** ** The key and the stored id *)

(** C10: when a successful [addTask] was given an id, [key], with white space
    around it, the entry is under the id as given: [getTask] of the
    trimmed id finds nothing (no such key was there before), and [getTask]
    of the untrimmed id returns the task, whose [id] field is the trimmed
    one. *)
Theorem addTask_key_is_untrimmed_id
        (now : Z) (key description datetime : jsstring) (st : State) :
  key <> trim key ->
  trim key <> [] ->
  Map_has (trim key) (tasks st) = false ->
  let r := addTask now key description datetime st in
  fst r = Normal true ->
  fst (getTask (trim key) (snd r)) = Normal None
  /\ exists t : Task,
       fst (getTask key (snd r)) = Normal (Some t)
       /\ id t = trim key.
Proof.
  intros Hne Hnb Hfree r Hok. subst r.
  destruct (addTask_Normal _ _ _ _ _ _ Hok) as (_ & Hhas & _ & Htasks).
  unfold getTask, bind, get_tasks, ret. cbn [fst snd]. rewrite Htasks.
  rewrite <- (Map_set_absent _ _ _ Hhas).
  split.
  - rewrite Map_get_set_other by congruence.
    f_equal. apply Map_get_has. exact Hfree.
  - eexists. rewrite Map_get_set_same. split; reflexivity.
Qed.

Lemma addTask_key_is_untrimmed_id_witness :
  let r := addTask 0 (lit " T1 ") (lit "Write report")
                   (lit "2025-07-15T14:30")
                   (snd (constructor (fresh_state 1000))) in
  fst (getTask (lit "T1") (snd r)) = Normal None
  /\ exists t : Task,
       fst (getTask (lit " T1 ") (snd r)) = Normal (Some t)
       /\ id t = lit "T1".
Proof.
  apply (addTask_key_is_untrimmed_id 0 (lit " T1 ") (lit "Write report")
           (lit "2025-07-15T14:30") (snd (constructor (fresh_state 1000)))).
  - discriminate.
  - discriminate.
  - reflexivity.
  - reflexivity.
Defined.

(** ** Uniqueness of the stored ids *)

(** C1 fails: two successful [addTask] calls, with "a" and with " a", leave
    two tasks whose stored id is "a", under two different keys. *)
Theorem stored_ids_not_unique :
  fst add_padded_a = Normal true
  /\ Map_keys (tasks (snd add_padded_a)) = [lit "a"; lit " a"]
  /\ map id (Map_values (tasks (snd add_padded_a))) = [lit "a"; lit "a"].
Proof. vm_compute. auto. Qed.

(** C2 fails: the store holds a task whose id is "a", which is [" a".trim()],
    and [addTask " a"] does not throw the duplicate error: it returns true
    and the count goes from 1 to 2. *)
Theorem trimmed_duplicate_accepted :
  map id (Map_values (tasks after_a)) = [lit "a"]
  /\ trim (lit " a") = lit "a"
  /\ fst add_padded_a <> Throw (DuplicateKey (lit " a"))
  /\ fst add_padded_a = Normal true
  /\ fst (getTaskCount after_a) = Normal 1%nat
  /\ fst (getTaskCount (snd add_padded_a)) = Normal 2%nat.
Proof. vm_compute. repeat split; discriminate. Qed.

(** ** Sorting by a key *)

Section SortByKey.
Context {A : Type}.
Variable key : A -> option Z.
Variable comparefn : A -> A -> option Z.

(** The comparator is the difference of the keys, NaN when one is NaN. *)
Hypothesis comparefn_key :
  forall a b,
    comparefn a b
    = match key a, key b with
      | Some x, Some y => Some (x - y)%Z
      | _, _ => None
      end.

Lemma sort_insert_Permutation (x : A) (l : list A) :
  Permutation (x :: l) (sort_insert comparefn x l).
Proof.
  induction l as [|y r IH]; simpl; [apply Permutation_refl|].
  destruct (0 <? SortCompare comparefn x y)%Z; [|apply Permutation_refl].
  eapply perm_trans; [apply perm_swap|]. apply perm_skip. exact IH.
Qed.

Lemma Array_sort_Permutation (l : list A) :
  Permutation l (Array_sort comparefn l).
Proof.
  induction l as [|x l IH]; simpl; [constructor|].
  eapply perm_trans; [apply perm_skip; exact IH|].
  apply sort_insert_Permutation.
Qed.

Lemma SortCompare_keys (a b : A) (x y : Z) :
  key a = Some x -> key b = Some y ->
  SortCompare comparefn a b = (x - y)%Z.
Proof.
  intros Ha Hb. unfold SortCompare. rewrite comparefn_key, Ha, Hb.
  reflexivity.
Qed.

Lemma sort_insert_sorted (x : A) (l : list A) :
  has_key key x -> Forall (has_key key) l ->
  StronglySorted (key_le key) l ->
  StronglySorted (key_le key) (sort_insert comparefn x l).
Proof.
  intros Hx. unfold has_key in Hx.
  destruct (key x) as [kx|] eqn:Ekx; [clear Hx | congruence].
  induction l as [|y r IH]; intros Hl Hs; simpl.
  - constructor; constructor.
  - inversion Hl as [|? ? Hy Hr]; subst. unfold has_key in Hy.
    destruct (key y) as [ky|] eqn:Eky; [clear Hy | congruence].
    inversion Hs as [|? ? Hsr Hall]; subst.
    rewrite (SortCompare_keys _ _ _ _ Ekx Eky).
    destruct (Z.ltb_spec 0 (kx - ky)) as [Hlt|Hge].
    + constructor; [apply IH; assumption|].
      eapply Permutation_Forall; [apply sort_insert_Permutation|].
      constructor; [|exact Hall].
      intros a b Ha Hb. rewrite Eky in Ha. rewrite Ekx in Hb.
      injection Ha as <-. injection Hb as <-. lia.
    + constructor; [exact Hs|].
      constructor.
      * intros a b Ha Hb. rewrite Ekx in Ha. rewrite Eky in Hb.
        injection Ha as <-. injection Hb as <-. lia.
      * rewrite Forall_forall in Hall |- *. intros z Hz a b Ha Hb.
        rewrite Ekx in Ha. injection Ha as <-.
        specialize (Hall z Hz ky b Eky Hb). lia.
Qed.

(** Where every key is a number the result is in order. *)
Lemma Array_sort_sorted (l : list A) :
  Forall (has_key key) l -> StronglySorted (key_le key) (Array_sort comparefn l).
Proof.
  induction l as [|x l IH]; intros H; simpl; [constructor|].
  inversion H as [|? ? Hx Hl]; subst.
  apply sort_insert_sorted; [exact Hx | | apply IH; exact Hl].
  eapply Permutation_Forall; [apply Array_sort_Permutation | exact Hl].
Qed.

(** The sort is stable: the elements of one key keep their order. *)
Lemma sort_insert_stable (z : Z) (x : A) (l : list A) :
  has_key key x -> Forall (has_key key) l ->
  filter (key_is key z) (sort_insert comparefn x l)
  = filter (key_is key z) (x :: l).
Proof.
  intros Hx Hl. set (same := key_is key z). unfold has_key in Hx.
  destruct (key x) as [kx|] eqn:Ekx; [clear Hx | congruence].
  induction l as [|y r IH]; [reflexivity|].
  inversion Hl as [|? ? Hy Hr]; subst. unfold has_key in Hy.
  destruct (key y) as [ky|] eqn:Eky; [clear Hy | congruence].
  cbn [sort_insert]. rewrite (SortCompare_keys _ _ _ _ Ekx Eky).
  destruct (Z.ltb_spec 0 (kx - ky)) as [Hlt|Hge]; [|reflexivity].
  assert (Sx : same x = (kx =? z)%Z)
    by (unfold same, key_is; rewrite Ekx; reflexivity).
  assert (Sy : same y = (ky =? z)%Z)
    by (unfold same, key_is; rewrite Eky; reflexivity).
  cbn [filter]. rewrite (IH Hr). cbn [filter]. rewrite Sx, Sy.
  destruct (Z.eqb_spec ky z), (Z.eqb_spec kx z); try reflexivity. lia.
Qed.

Lemma Array_sort_stable (z : Z) (l : list A) :
  Forall (has_key key) l ->
  filter (key_is key z) (Array_sort comparefn l) = filter (key_is key z) l.
Proof.
  intros H. induction l as [|x l IH]; [reflexivity|].
  inversion H as [|? ? Hx Hl]; subst. cbn [Array_sort fold_right].
  fold (Array_sort comparefn l).
  rewrite sort_insert_stable; [| exact Hx |].
  - cbn [filter]. rewrite (IH Hl). reflexivity.
  - eapply Permutation_Forall; [apply Array_sort_Permutation | exact Hl].
Qed.

(** Two arrangements in order that agree key by key are the same list:
    for a consistent comparator the result of a stable sort is fixed. *)
Lemma stable_sorted_unique (l1 l2 : list A) :
  Forall (has_key key) l1 -> Forall (has_key key) l2 ->
  StronglySorted (key_le key) l1 -> StronglySorted (key_le key) l2 ->
  (forall z, filter (key_is key z) l1 = filter (key_is key z) l2) ->
  l1 = l2.
Proof.
  revert l2. induction l1 as [|a r1 IH]; intros l2 K1 K2 S1 S2 Heq.
  - destruct l2 as [|b r2]; [reflexivity|].
    inversion K2 as [|? ? Kb _]; subst. unfold has_key in Kb.
    destruct (key b) as [w|] eqn:Eb; [|congruence].
    specialize (Heq w). cbn [filter] in Heq. unfold key_is at 1 in Heq.
    rewrite Eb, Z.eqb_refl in Heq. discriminate.
  - inversion K1 as [|? ? Ka K1']; subst. unfold has_key in Ka.
    destruct (key a) as [z|] eqn:Ea; [|congruence].
    assert (Fa : forall l, filter (key_is key z) (a :: l)
                           = a :: filter (key_is key z) l).
    { intros l. cbn [filter]. unfold key_is at 1.
      rewrite Ea, Z.eqb_refl. reflexivity. }
    destruct l2 as [|b r2].
    + specialize (Heq z). rewrite Fa in Heq. discriminate.
    + inversion K2 as [|? ? Kb K2']; subst. unfold has_key in Kb.
      destruct (key b) as [w|] eqn:Eb; [|congruence].
      assert (Fb : forall l, filter (key_is key w) (b :: l)
                             = b :: filter (key_is key w) l).
      { intros l. cbn [filter]. unfold key_is at 1.
        rewrite Eb, Z.eqb_refl. reflexivity. }
      apply StronglySorted_inv in S1. destruct S1 as [S1 A1].
      apply StronglySorted_inv in S2. destruct S2 as [S2 A2].
      rewrite Forall_forall in A1, A2.
      assert (Hwz : (w <= z)%Z).
      { assert (Hin : In a (filter (key_is key z) (b :: r2))).
        { rewrite <- Heq, Fa. left; reflexivity. }
        apply filter_In in Hin. destruct Hin as [[->|Hin] _].
        - rewrite Ea in Eb. injection Eb as ->. lia.
        - exact (A2 a Hin w z Eb Ea). }
      assert (Hzw : (z <= w)%Z).
      { assert (Hin : In b (filter (key_is key w) (a :: r1))).
        { rewrite Heq, Fb. left; reflexivity. }
        apply filter_In in Hin. destruct Hin as [[->|Hin] _].
        - rewrite Ea in Eb. injection Eb as ->. lia.
        - exact (A1 b Hin z w Ea Eb). }
      assert (w = z) by lia. subst w.
      pose proof (Heq z) as Hz. rewrite Fa, Fb in Hz.
      injection Hz as Hab Hz. subst b.
      f_equal. apply IH; try assumption.
      intros z'. destruct (Z.eq_dec z' z) as [->|Hne]; [exact Hz|].
      specialize (Heq z'). cbn [filter] in Heq.
      assert (Hk : key_is key z' a = false).
      { unfold key_is. rewrite Ea. apply Z.eqb_neq. congruence. }
      rewrite Hk in Heq. exact Heq.
Qed.

(** So the model of [sort] is no choice where every key is a number: an
    arrangement of [l] that is in order and keeps the elements of equal
    keys in their order is the one [Array_sort] returns. *)
Lemma Array_sort_canonical (l l' : list A) :
  Forall (has_key key) l ->
  Permutation l l' ->
  StronglySorted (key_le key) l' ->
  (forall z, filter (key_is key z) l' = filter (key_is key z) l) ->
  l' = Array_sort comparefn l.
Proof.
  intros K P S F. apply stable_sorted_unique.
  - eapply Permutation_Forall; [exact P | exact K].
  - eapply Permutation_Forall; [apply Array_sort_Permutation | exact K].
  - exact S.
  - apply Array_sort_sorted. exact K.
  - intros z. rewrite F, Array_sort_stable by exact K. reflexivity.
Qed.
End SortByKey.

(** ** getAllTasks *)

Lemma compareDatetime_key (host : Host) (a b : Task) :
  compareDatetime host a b
  = match time_of_task host a, time_of_task host b with
    | Some x, Some y => Some (x - y)%Z
    | _, _ => None
    end.
Proof. reflexivity. Qed.

Lemma parse_example_1 (host : Host) :
  Date.parse host (lit "2025-01-02T10:00")
  = Date.TimeClip (1735812000000 - LocalTZA host 1735812000000).
Proof. reflexivity. Qed.

Lemma parse_example_2 (host : Host) :
  Date.parse host (lit "2025-01-01T09:00")
  = Date.TimeClip (1735722000000 - LocalTZA host 1735722000000).
Proof. reflexivity. Qed.

Lemma parse_example_3 (host : Host) :
  Date.parse host (lit "2025-01-03T08:00")
  = Date.TimeClip (1735891200000 - LocalTZA host 1735891200000).
Proof. reflexivity. Qed.

Lemma TimeClip_in_range (t : Z) :
  (Z.abs t <= 8640000000000000)%Z -> Date.TimeClip t = Some t.
Proof.
  intros H. unfold Date.TimeClip.
  destruct (Z.leb_spec (Z.abs t) 8640000000000000); [reflexivity | lia].
Qed.

Lemma getAllTasks_unfold (host : Host) (st : State) :
  getAllTasks host st
  = (Normal (Array_sort (compareDatetime host) (Map_values (tasks st))), st).
Proof. reflexivity. Qed.

Lemma sort_three_example (host : Host) (t1 t2 t3 : Task) :
  calm_zone host example_from example_to ->
  datetime t1 = lit "2025-01-02T10:00" ->
  datetime t2 = lit "2025-01-01T09:00" ->
  datetime t3 = lit "2025-01-03T08:00" ->
  Array_sort (compareDatetime host) [t1; t2; t3] = [t2; t1; t3].
Proof.
  intros Hz D1 D2 D3.
  unfold calm_zone, example_from, example_to, Date.msPerDay, Date.msPerHour in Hz.
  set (o1 := LocalTZA host 1735812000000).
  set (o2 := LocalTZA host 1735722000000).
  set (o3 := LocalTZA host 1735891200000).
  assert (H12 := Hz 1735812000000%Z 1735722000000%Z).
  assert (H13 := Hz 1735812000000%Z 1735891200000%Z).
  assert (H23 := Hz 1735722000000%Z 1735891200000%Z).
  assert (H31 := Hz 1735891200000%Z 1735812000000%Z).
  fold o1 o2 o3 in H12, H13, H23, H31.
  assert (K1 : time_of_task host t1 = Some (1735812000000 - o1)%Z).
  { unfold time_of_task, Date.getTime. rewrite D1, parse_example_1.
    apply TimeClip_in_range. fold o1. lia. }
  assert (K2 : time_of_task host t2 = Some (1735722000000 - o2)%Z).
  { unfold time_of_task, Date.getTime. rewrite D2, parse_example_2.
    apply TimeClip_in_range. fold o2. lia. }
  assert (K3 : time_of_task host t3 = Some (1735891200000 - o3)%Z).
  { unfold time_of_task, Date.getTime. rewrite D3, parse_example_3.
    apply TimeClip_in_range. fold o3. lia. }
  pose proof (SortCompare_keys _ _ (compareDatetime_key host)) as SC.
  cbn [Array_sort fold_right sort_insert].
  rewrite (SC _ _ _ _ K2 K3).
  destruct (Z.ltb_spec 0 (1735722000000 - o2 - (1735891200000 - o3))%Z);
    [lia|].
  cbn [sort_insert]. rewrite (SC _ _ _ _ K1 K2).
  destruct (Z.ltb_spec 0 (1735812000000 - o1 - (1735722000000 - o2))%Z);
    [|lia].
  cbn [sort_insert]. rewrite (SC _ _ _ _ K1 K3).
  destruct (Z.ltb_spec 0 (1735812000000 - o1 - (1735891200000 - o3))%Z);
    [lia|].
  reflexivity.
Qed.

(** C4, amended: in a store where the datetime of every task parses to a
    date, [getAllTasks] returns all the stored tasks, in ascending order of
    the parsed datetime, tasks of the same time in insertion order.  In
    particular, in a host whose zone offset moves by less than 22 hours
    over the three days, three tasks added to an empty store with the
    datetimes 2025-01-02T10:00, 2025-01-01T09:00 and 2025-01-03T08:00 come
    back as the second, the first, the third. *)
Theorem getAllTasks_sorted_when_datetimes_parse (host : Host) :
  (forall st : State,
      Forall (has_key (time_of_task host)) (Map_values (tasks st)) ->
      exists l : list Task,
        getAllTasks host st = (Normal l, st)
        /\ Permutation (Map_values (tasks st)) l
        /\ sorted_by_datetime host l
        /\ forall z, filter (at_time host z) l
                     = filter (at_time host z) (Map_values (tasks st)))
  /\ (calm_zone host example_from example_to ->
      forall (st0 : State) (n1 n2 n3 : Z) (k1 k2 k3 e1 e2 e3 : jsstring),
        tasks st0 = [] ->
        let r1 := addTask n1 k1 e1 (lit "2025-01-02T10:00") st0 in
        let r2 := addTask n2 k2 e2 (lit "2025-01-01T09:00") (snd r1) in
        let r3 := addTask n3 k3 e3 (lit "2025-01-03T08:00") (snd r2) in
        fst r1 = Normal true -> fst r2 = Normal true -> fst r3 = Normal true ->
        fst (getAllTasks host (snd r3))
        = Normal [mkTask (trim k2) (trim e2) (lit "2025-01-01T09:00")
                         (DateObject n2);
                  mkTask (trim k1) (trim e1) (lit "2025-01-02T10:00")
                         (DateObject n1);
                  mkTask (trim k3) (trim e3) (lit "2025-01-03T08:00")
                         (DateObject n3)]).
Proof.
  split.
  - intros st Hall. rewrite getAllTasks_unfold. eexists. split; [reflexivity|].
    split; [apply Array_sort_Permutation|].
    split.
    + apply (Array_sort_sorted _ _ (compareDatetime_key host)). exact Hall.
    + intros z.
      apply (Array_sort_stable _ _ (compareDatetime_key host) z _ Hall).
  - intros Hz st0 n1 n2 n3 k1 k2 k3 e1 e2 e3 Hempty r1 r2 r3 H1 H2 H3.
    destruct (addTask_Normal _ _ _ _ _ _ H1) as (_ & _ & _ & T1).
    destruct (addTask_Normal _ _ _ _ _ _ H2) as (_ & _ & _ & T2).
    destruct (addTask_Normal _ _ _ _ _ _ H3) as (_ & _ & _ & T3).
    fold r1 in T1, T2. fold r2 in T2, T3. fold r3 in T3.
    rewrite getAllTasks_unfold. cbn [fst].
    rewrite T3, T2, T1, Hempty. cbn [app Map_values map snd].
    rewrite (sort_three_example host _ _ _ Hz); reflexivity.
Qed.

Lemma calm_zone_UTC (lo hi : Z) : calm_zone UTC_host lo hi.
Proof. intros t t' _ _. cbn. unfold Date.msPerDay, Date.msPerHour. lia. Qed.

Lemma getAllTasks_sorted_when_datetimes_parse_witness :
  (exists l : list Task,
      getAllTasks UTC_host example_store = (Normal l, example_store)
      /\ Permutation (Map_values (tasks example_store)) l
      /\ sorted_by_datetime UTC_host l
      /\ forall z, filter (at_time UTC_host z) l
                   = filter (at_time UTC_host z)
                            (Map_values (tasks example_store)))
  /\ map datetime (value [] (getAllTasks UTC_host example_store))
     = [lit "2025-01-01T09:00"; lit "2025-01-02T10:00"; lit "2025-01-03T08:00"].
Proof.
  destruct (getAllTasks_sorted_when_datetimes_parse UTC_host) as [Hsort Hex].
  split.
  - apply (Hsort example_store).
    assert (E : Map_values (tasks example_store)
                = [mkTask (lit "A") (lit "first") (lit "2025-01-02T10:00")
                          (DateObject 1);
                   mkTask (lit "B") (lit "second") (lit "2025-01-01T09:00")
                          (DateObject 2);
                   mkTask (lit "C") (lit "third") (lit "2025-01-03T08:00")
                          (DateObject 3)])
      by (vm_compute; reflexivity).
    rewrite E.
    repeat constructor; unfold has_key; vm_compute; discriminate.
  - unfold value, example_store.
    rewrite (Hex (calm_zone_UTC _ _) (snd (constructor (fresh_state 1000)))
                 1%Z 2%Z 3%Z (lit "A") (lit "B") (lit "C")
                 (lit "first") (lit "second") (lit "third"));
      reflexivity.
Defined.

(** An array of two tasks or more that is ascending for the comparison of
    JavaScript numbers has no datetime that is NaN. *)
Lemma date_le_sorted_parses (host : Host) (l : list Task) :
  StronglySorted (date_le host) l ->
  (2 <= length l)%nat ->
  Forall (has_key (time_of_task host)) l.
Proof.
  intros S Hlen. destruct l as [|h [|x r]]; cbn [length] in Hlen; try lia.
  apply StronglySorted_inv in S. destruct S as [_ Hall].
  rewrite Forall_forall in Hall |- *.
  intros t [<-|Hin]; unfold has_key.
  - destruct (Hall x (or_introl eq_refl)) as (a & b & Ha & _). congruence.
  - destruct (Hall t Hin) as (a & b & _ & Hb & _). congruence.
Qed.

(** C4 as stated fails: with a task whose datetime does not parse between
    them, the task of 3 January comes back before the task of 1 January;
    and whatever order a sort leaves these three tasks in, it is not
    ascending for the comparison of JavaScript numbers, NaN being below or
    equal to nothing. *)
Lemma getAllTasks_unparseable_not_sorted :
  map datetime (value [] (getAllTasks UTC_host unparseable_store))
  = [lit "2025-01-03T08:00"; lit "abc"; lit "2025-01-01T09:00"]
  /\ ~ sorted_by_datetime UTC_host
         (value [] (getAllTasks UTC_host unparseable_store))
  /\ forall l : list Task,
       Permutation (Map_values (tasks unparseable_store)) l ->
       ~ StronglySorted (date_le UTC_host) l.
Proof.
  split; [reflexivity|]. split.
  - assert (E : value [] (getAllTasks UTC_host unparseable_store)
                = [mkTask (lit "A") (lit "first") (lit "2025-01-03T08:00")
                          (DateObject 1);
                   mkTask (lit "B") (lit "second") (lit "abc") (DateObject 2);
                   mkTask (lit "C") (lit "third") (lit "2025-01-01T09:00")
                          (DateObject 3)])
      by (vm_compute; reflexivity).
    rewrite E. clear E.
    intros H. unfold sorted_by_datetime in H.
    apply StronglySorted_inv in H. destruct H as [_ H].
    rewrite Forall_forall in H.
    specialize (H (mkTask (lit "C") (lit "third") (lit "2025-01-01T09:00")
                          (DateObject 3))).
    assert (Hin : In (mkTask (lit "C") (lit "third") (lit "2025-01-01T09:00")
                             (DateObject 3))
                     [mkTask (lit "B") (lit "second") (lit "abc") (DateObject 2);
                      mkTask (lit "C") (lit "third") (lit "2025-01-01T09:00")
                             (DateObject 3)])
      by (right; left; reflexivity).
    specialize (H Hin 1735891200000%Z 1735722000000%Z eq_refl eq_refl).
    lia.
  - intros l P S.
    assert (E : Map_values (tasks unparseable_store)
                = [mkTask (lit "A") (lit "first") (lit "2025-01-03T08:00")
                          (DateObject 1);
                   mkTask (lit "B") (lit "second") (lit "abc") (DateObject 2);
                   mkTask (lit "C") (lit "third") (lit "2025-01-01T09:00")
                          (DateObject 3)])
      by (vm_compute; reflexivity).
    rewrite E in P. clear E.
    pose proof (Permutation_length P) as Hlen. cbn [length] in Hlen.
    apply date_le_sorted_parses in S; [|rewrite <- Hlen; repeat constructor].
    rewrite Forall_forall in S.
    apply (S (mkTask (lit "B") (lit "second") (lit "abc") (DateObject 2))).
    + eapply Permutation_in; [exact P|]. right; left; reflexivity.
    + reflexivity.
Qed.

(** ** Persist, then restore *)

Lemma Task_ofJSON_toJSON (t : Task) : Task_ofJSON (Task_toJSON t) = Some (revive t).
Proof. destruct t as [a b c [tv|s]]; reflexivity. Qed.

Lemma entries_num_free (es : list (jsstring * Task)) :
  JSON.num_free (entries_toJSON es) = true.
Proof.
  unfold entries_toJSON. cbn [JSON.num_free].
  apply forallb_forall. intros x Hx. apply in_map_iff in Hx.
  destruct Hx as [[k [a b c [tv|s]]] [<- _]]; reflexivity.
Qed.

Lemma entries_no_primitive (es : list (jsstring * Task)) :
  existsb is_primitive (map entry_toJSON es) = false.
Proof.
  induction es as [|[k t] es IH]; [reflexivity|].
  cbn [map existsb]. rewrite IH.
  unfold is_primitive, entry_toJSON, entry_of. cbn [fst snd].
  rewrite Task_ofJSON_toJSON. reflexivity.
Qed.

Lemma typed_entries_toJSON (es : list (jsstring * Task)) :
  typed_entries (map entry_toJSON es) = Some (map revive_entry es).
Proof.
  induction es as [|[k t] es IH]; [reflexivity|].
  cbn [map typed_entries]. rewrite IH.
  unfold entry_toJSON, entry_of. cbn [fst snd].
  rewrite Task_ofJSON_toJSON. reflexivity.
Qed.

Lemma Map_keys_revive (m : Map Task) :
  Map_keys (map revive_entry m) = Map_keys m.
Proof.
  unfold Map_keys. rewrite map_map. apply map_ext. intros [k t]. reflexivity.
Qed.

(** [new Map(JSON.parse(JSON.stringify(Array.from(m.entries()))))] *)
Lemma new_Map_parse_stringify (m : Map Task) (st : State) :
  Map_wf m ->
  JSON.parse (JSON_stringify (Map_entries m)) = Some (entries_toJSON m)
  /\ new_Map (entries_toJSON m) st = (Normal (map revive_entry m), st).
Proof.
  intros Hwf. split.
  - apply JSONFacts.parse_serialize. apply entries_num_free.
  - unfold new_Map, entries_toJSON. fold entry_toJSON.
    change (fun kv : jsstring * Task =>
              JArray [JString (fst kv); Task_toJSON (snd kv)]) with
        entry_toJSON.
    rewrite entries_no_primitive, typed_entries_toJSON.
    unfold ret. f_equal. f_equal.
    apply (Map_from_entries (map revive_entry m)).
    unfold Map_wf. rewrite Map_keys_revive. exact Hwf.
Qed.

Lemma JSON_stringify_truthy (es : list (jsstring * Task)) :
  falsy (JSON_stringify es) = false.
Proof. reflexivity. Qed.

(** The constructor of a later session, on a storage whose slot holds the
    text of [m]. *)
Lemma constructor_restores (m : Map Task) (st : State) :
  Map_wf m ->
  Map_get STORAGE_KEY (items (localStorage st))
  = Some (JSON_stringify (Map_entries m)) ->
  constructor st
  = (Normal tt, mkState (map revive_entry m) (localStorage st) (trace st)).
Proof.
  intros Hwf Hslot.
  destruct (new_Map_parse_stringify m
              (mkState [] (localStorage st) (trace st)) Hwf) as [Hp Hm].
  unfold constructor, loadFromLocalStorage, bind, try_catch, set_tasks,
    getItem, JSON_parse.
  cbn [fst snd tasks localStorage trace]. rewrite Hslot.
  rewrite JSON_stringify_truthy, Hp. unfold ret at 1.
  rewrite Hm. reflexivity.
Qed.

(** C5: when the collection is persisted ([saveToLocalStorage], the write
    fitting the quota) and a later session restores it (the constructor
    calls [loadFromLocalStorage] on the same storage), the restored
    collection has the same keys in the same order and, entry by entry, the
    same id, description and datetime; [createdAt] comes back as the ISO
    string of the date. *)
Theorem persist_restore_roundtrip (st : State) :
  Map_wf (tasks st) ->
  fits st = true ->
  let r := constructor (snd (saveToLocalStorage st)) in
  fst r = Normal tt
  /\ tasks (snd r) = map revive_entry (tasks st)
  /\ Map_keys (tasks (snd r)) = Map_keys (tasks st)
  /\ map (fun kv => (id (snd kv), description (snd kv), datetime (snd kv)))
         (tasks (snd r))
     = map (fun kv => (id (snd kv), description (snd kv), datetime (snd kv)))
           (tasks st).
Proof.
  intros Hwf Hfits r. subst r.
  rewrite saveToLocalStorage_saved. cbn [snd].
  rewrite (constructor_restores (tasks st) (saved st) Hwf (saved_fits st Hfits)).
  cbn [fst snd tasks].
  split; [reflexivity|]. split; [reflexivity|].
  split; [apply Map_keys_revive|].
  rewrite map_map. apply map_ext. intros [k t]. reflexivity.
Qed.

Lemma persist_restore_roundtrip_witness :
  let r := constructor (snd (saveToLocalStorage example_store)) in
  fst r = Normal tt
  /\ Map_keys (tasks (snd r)) = [lit "A"; lit "B"; lit "C"]
  /\ map (fun kv => (id (snd kv), description (snd kv), datetime (snd kv)))
         (tasks (snd r))
     = [(lit "A", lit "first", lit "2025-01-02T10:00");
        (lit "B", lit "second", lit "2025-01-01T09:00");
        (lit "C", lit "third", lit "2025-01-03T08:00")].
Proof.
  destruct (persist_restore_roundtrip example_store) as (H1 & _ & H3 & H4).
  - vm_compute. repeat constructor; simpl; intuition discriminate.
  - vm_compute. reflexivity.
  - split; [exact H1|]. split; [rewrite H3 | rewrite H4]; reflexivity.
Defined.

(** * Part III: further properties of the TaskManager *)

(** ** The constructor on any storage *)

Lemma new_Map_state (v : json) (st : State) : snd (new_Map v st) = st.
Proof.
  destruct v as [|b|lexeme|s|l|ms]; cbn [new_Map]; try reflexivity.
  - destruct (falsy s); reflexivity.
  - destruct (existsb is_primitive l); [reflexivity|].
    destruct (typed_entries l); reflexivity.
Qed.

(** All the ways through the constructor. *)
Lemma constructor_cases (st : State) :
  constructor st
  = match slot st with
    | None => (Normal tt, unloaded st)
    | Some text =>
        if falsy text then (Normal tt, unloaded st)
        else
          match JSON.parse text with
          | None => (Normal tt, log (load_error SyntaxError) (unloaded st))
          | Some v =>
              match fst (new_Map v (unloaded st)) with
              | Normal m =>
                  (Normal tt, mkState m (localStorage st) (trace st))
              | Throw e => (Normal tt, log (load_error e) (unloaded st))
              | IllTyped => (IllTyped, unloaded st)
              end
          end
    end.
Proof.
  unfold constructor, loadFromLocalStorage, bind, try_catch, set_tasks,
    getItem, JSON_parse, slot, unloaded.
  cbn [fst snd tasks localStorage trace].
  destruct (Map_get STORAGE_KEY (items (localStorage st))) as [text|];
    [|reflexivity].
  destruct (falsy text); [reflexivity|].
  destruct (JSON.parse text) as [v|]; [|reflexivity].
  unfold ret at 1. unfold throw.
  pose proof (new_Map_state v (mkState [] (localStorage st) (trace st))) as Hs.
  destruct (new_Map v (mkState [] (localStorage st) (trace st))) as [[m|e|] st'];
    cbn [fst snd] in *; subst st'; reflexivity.
Qed.

Lemma Map_wf_nil (V : Type) : Map_wf (@nil (jsstring * V)).
Proof. constructor. Qed.

Lemma Map_wf_Map_from (V : Type) (es : list (jsstring * V)) :
  Map_wf (Map_from es).
Proof.
  unfold Map_from. generalize (Map_wf_nil V).
  generalize (@nil (jsstring * V)) as acc.
  induction es as [|[k v] es IH]; intros acc H; cbn [fold_left fst snd];
    [exact H|].
  apply IH. apply Map_wf_set. exact H.
Qed.

Lemma new_Map_wf (v : json) (st : State) (m : Map Task) :
  fst (new_Map v st) = Normal m -> Map_wf m.
Proof.
  destruct v as [|b|lexeme|s|l|ms]; cbn [new_Map]; try discriminate.
  - intros H. injection H as <-. apply Map_wf_nil.
  - destruct (falsy s); [|discriminate].
    intros H. injection H as <-. apply Map_wf_nil.
  - destruct (existsb is_primitive l); [discriminate|].
    destruct (typed_entries l) as [es|]; [|discriminate].
    intros H. injection H as <-. apply Map_wf_Map_from.
Qed.

Lemma constructor_wf (st : State) : Map_wf (tasks (snd (constructor st))).
Proof.
  rewrite constructor_cases.
  destruct (slot st) as [text|]; [|apply Map_wf_nil].
  destruct (falsy text); [apply Map_wf_nil|].
  destruct (JSON.parse text) as [v|]; [|apply Map_wf_nil].
  destruct (fst (new_Map v (unloaded st))) as [m|e|] eqn:E;
    try apply Map_wf_nil.
  apply (new_Map_wf _ _ _ E).
Qed.

Lemma tasks_log (e : Event) (st : State) : tasks (log e st) = tasks st.
Proof. reflexivity. Qed.

Lemma localStorage_log (e : Event) (st : State) :
  localStorage (log e st) = localStorage st.
Proof. reflexivity. Qed.

(** X1: a page that finds no item under its key, or the empty string,
    starts with an empty collection: the constructor returns normally, logs
    nothing and leaves the storage as it is. *)
Theorem constructor_nothing_stored (st : State) :
  slot st = None \/ slot st = Some [] ->
  constructor st = (Normal tt, unloaded st)
  /\ fst (getTaskCount (snd (constructor st))) = Normal O
  /\ trace (snd (constructor st)) = trace st
  /\ localStorage (snd (constructor st)) = localStorage st.
Proof.
  intros H. rewrite constructor_cases.
  destruct H as [-> | ->]; cbn [falsy]; auto.
Qed.

Lemma constructor_nothing_stored_witness :
  constructor (mkState [] (mkStorage [(STORAGE_KEY, [])] 100) [])
  = (Normal tt, mkState [] (mkStorage [(STORAGE_KEY, [])] 100) []).
Proof.
  apply (constructor_nothing_stored
           (mkState [] (mkStorage [(STORAGE_KEY, [])] 100) [])).
  right. reflexivity.
Defined.

(** X2: when the item under the key is not JSON, the SyntaxError of
    [JSON.parse] is caught: the constructor returns normally, the error is
    logged to the console, the collection is empty and the storage keeps
    the text. *)
Theorem constructor_malformed_item (st : State) (text : jsstring) :
  slot st = Some text ->
  text <> [] ->
  JSON.parse text = None ->
  constructor st = (Normal tt, log (load_error SyntaxError) (unloaded st))
  /\ tasks (snd (constructor st)) = []
  /\ trace (snd (constructor st)) = trace st ++ [load_error SyntaxError]
  /\ slot (snd (constructor st)) = Some text.
Proof.
  intros Hslot Hne Hparse. rewrite constructor_cases, Hslot, Hparse.
  destruct text as [|c r]; [congruence|]. cbn [falsy].
  repeat split. exact Hslot.
Qed.

Lemma constructor_malformed_item_witness :
  let st := mkState [] (mkStorage [(STORAGE_KEY, lit "{oops")] 100) [] in
  tasks (snd (constructor st)) = []
  /\ trace (snd (constructor st)) = [load_error SyntaxError].
Proof.
  intros st.
  destruct (constructor_malformed_item st (lit "{oops"))
    as (_ & H1 & H2 & _);
    [reflexivity | discriminate | reflexivity |].
  split; [exact H1 | exact H2].
Defined.


(** ** trim *)

Lemma trimStart_split (s : jsstring) :
  exists h, s = h ++ trimStart s /\ forallb isWhiteSpace h = true.
Proof.
  induction s as [|c r IH]; [exists []; auto|].
  cbn [trimStart]. destruct (isWhiteSpace c) eqn:E.
  - destruct IH as (h & Hr & Hh). exists (c :: h). split.
    + cbn [app]. congruence.
    + cbn [forallb]. rewrite E, Hh. reflexivity.
  - exists []. auto.
Qed.

Lemma trimStart_head (s : jsstring) (c : N) (r : jsstring) :
  trimStart s = c :: r -> isWhiteSpace c = false.
Proof.
  induction s as [|d s IH]; cbn [trimStart]; [discriminate|].
  destruct (isWhiteSpace d) eqn:E; [exact IH|].
  intros H. injection H as -> _. exact E.
Qed.

Lemma trimStart_fixed (s : jsstring) :
  match s with [] => True | c :: _ => isWhiteSpace c = false end ->
  trimStart s = s.
Proof. destruct s as [|c r]; cbn [trimStart]; [auto|]. intros ->. reflexivity. Qed.

Lemma trimStart_idempotent (s : jsstring) :
  trimStart (trimStart s) = trimStart s.
Proof.
  apply trimStart_fixed. destruct (trimStart s) as [|c r] eqn:E; [exact I|].
  exact (trimStart_head _ _ _ E).
Qed.

(** What [trim] returns starts and ends with a character that is not
    white space. *)
Lemma trim_head (s : jsstring) (c : N) (r : jsstring) :
  trim s = c :: r -> isWhiteSpace c = false.
Proof.
  unfold trim, trimEnd. intros H.
  destruct (trimStart_split (rev (trimStart s))) as (h & Hsplit & _).
  apply (f_equal (@rev N)) in Hsplit.
  rewrite rev_involutive, rev_app_distr, H in Hsplit. cbn [app] in Hsplit.
  exact (trimStart_head _ _ _ Hsplit).
Qed.

Lemma trim_idempotent (s : jsstring) : trim (trim s) = trim s.
Proof.
  assert (Hfix : trimStart (trim s) = trim s).
  { apply trimStart_fixed. destruct (trim s) as [|c r] eqn:E; [exact I|].
    exact (trim_head _ _ _ E). }
  unfold trim at 1. rewrite Hfix. unfold trim, trimEnd.
  rewrite rev_involutive, trimStart_idempotent. reflexivity.
Qed.

(** ** What every call keeps *)

Lemma slot_saved_fits (st : State) :
  fits st = true -> slot (saved st) = Some (JSON_stringify (tasks st)).
Proof. apply saved_fits. Qed.

Lemma saved_not_fits (st : State) :
  fits st = false -> localStorage (saved st) = localStorage st.
Proof. unfold fits, saved. intros ->. reflexivity. Qed.

Lemma saved_Inv (P : jsstring * Task -> Prop) (st : State) :
  Inv P st -> Inv P (saved st).
Proof.
  intros (Hwf & HP & Hslot). unfold Inv. rewrite tasks_saved.
  split; [exact Hwf|]. split; [exact HP|].
  destruct (fits st) eqn:Hfits.
  - right. exists (tasks st). auto using slot_saved_fits.
  - unfold slot_holds, slot in *. rewrite (saved_not_fits st Hfits).
    exact Hslot.
Qed.

Lemma Forall_filter (A : Type) (P : A -> Prop) (f : A -> bool) (l : list A) :
  Forall P l -> Forall P (filter f l).
Proof.
  rewrite !Forall_forall. intros H x Hx. apply filter_In in Hx.
  apply H. tauto.
Qed.

Lemma call_Inv (P : jsstring * Task -> Prop) (c : Call) (st : State) :
  (forall kv, P kv -> P (revive_entry kv)) ->
  admits P c -> Inv P st -> Inv P (call c st).
Proof.
  intros Hrev Hc HI. pose proof HI as (Hwf & HP & Hslot).
  destruct c as [now id d dt|id| |]; cbn [call admits] in *.
  - rewrite addTask_unfold.
    destruct (Map_has id (tasks st)) eqn:Hhas; [exact HI|].
    destruct (blank id d dt); [exact HI|].
    cbn [snd]. apply saved_Inv. unfold Inv. cbn [tasks].
    split; [apply Map_wf_set; exact Hwf|].
    split; [|exact Hslot].
    rewrite (Map_set_absent _ _ _ Hhas). apply Forall_app. split; [exact HP|].
    constructor; [apply Hc; reflexivity | constructor].
  - rewrite removeTask_unfold.
    destruct (Map_has id (tasks st)); [|exact HI].
    cbn [snd]. apply saved_Inv. unfold Inv. cbn [tasks].
    rewrite (Map_delete_filter _ _ Hwf).
    split; [apply Map_wf_filter; exact Hwf|].
    split; [apply Forall_filter; exact HP | exact Hslot].
  - unfold clearAllTasks, bind, set_tasks.
    rewrite saveToLocalStorage_saved. cbn [snd]. apply saved_Inv.
    unfold Inv. cbn [tasks]. split; [apply Map_wf_nil|].
    split; [constructor | exact Hslot].
  - destruct Hslot as [Hnone | (m & Hm & HPm & Hsome)].
    + rewrite constructor_cases, Hnone. cbn [snd]. unfold Inv. cbn [tasks].
      split; [apply Map_wf_nil|]. split; [constructor|]. left. exact Hnone.
    + rewrite (constructor_restores m st Hm Hsome). cbn [snd].
      unfold Inv. cbn [tasks].
      split; [unfold Map_wf; rewrite Map_keys_revive; exact Hm|].
      split.
      * rewrite Forall_forall in HPm |- *. intros kv Hin.
        apply in_map_iff in Hin. destruct Hin as (kv0 & <- & Hin0).
        apply Hrev, HPm, Hin0.
      * right. exists m. auto.
Qed.

Lemma session_Inv (P : jsstring * Task -> Prop) (cs : list Call) :
  (forall kv, P kv -> P (revive_entry kv)) ->
  Forall (admits P) cs ->
  forall st, Inv P st -> Inv P (session cs st).
Proof.
  intros Hrev. induction cs as [|c cs IH]; intros Hcs st HI; [exact HI|].
  inversion Hcs as [|? ? Hc Hcs']; subst.
  cbn [session fold_left]. apply (IH Hcs'). apply call_Inv; assumption.
Qed.

Lemma Inv_first_page (P : jsstring * Task -> Prop) (q : nat) :
  Inv P (snd (constructor (fresh_state q))).
Proof.
  rewrite constructor_cases. cbn. unfold Inv. cbn.
  split; [constructor|]. split; [constructor|]. left. reflexivity.
Qed.

Lemma call_wf (c : Call) (st : State) :
  Map_wf (tasks st) -> Map_wf (tasks (call c st)).
Proof.
  intros Hwf. destruct c as [now id d dt|id| |]; cbn [call].
  - rewrite addTask_unfold.
    destruct (Map_has id (tasks st)); [exact Hwf|].
    destruct (blank id d dt); [exact Hwf|].
    cbn [snd]. rewrite tasks_saved. apply Map_wf_set. exact Hwf.
  - rewrite removeTask_unfold.
    destruct (Map_has id (tasks st)); [|exact Hwf].
    cbn [snd]. rewrite tasks_saved. cbn [tasks].
    rewrite (Map_delete_filter _ _ Hwf). apply Map_wf_filter. exact Hwf.
  - unfold clearAllTasks, bind, set_tasks.
    rewrite saveToLocalStorage_saved. cbn [snd]. rewrite tasks_saved.
    apply Map_wf_nil.
  - apply constructor_wf.
Qed.


(** X5: when every id given to [addTask] is free of surrounding white
    space, the stored ids are pairwise distinct, and each task sits under
    its own id, throughout a session that starts on an empty storage. *)
Theorem ids_distinct_when_given_trimmed (q : nat) (cs : list Call) :
  Forall trimmed_id cs ->
  let st := session cs (snd (constructor (fresh_state q))) in
  NoDup (map id (Map_values (tasks st)))
  /\ Forall keyed_by_id (tasks st).
Proof.
  intros Hcs st.
  assert (HI : Inv keyed_by_id st).
  { apply session_Inv; [intros [k t] H; exact H | | apply Inv_first_page].
    rewrite Forall_forall in Hcs |- *. intros c Hin. specialize (Hcs c Hin).
    destruct c; cbn in *; auto. }
  destruct HI as (Hwf & Hk & _). split; [|exact Hk].
  replace (map id (Map_values (tasks st))) with (Map_keys (tasks st));
    [exact Hwf|].
  unfold Map_keys, Map_values. rewrite map_map.
  apply map_ext_in. intros kv Hin. rewrite Forall_forall in Hk.
  symmetry. exact (Hk kv Hin).
Qed.

Lemma ids_distinct_when_given_trimmed_witness :
  NoDup (map id (Map_values (tasks
    (session [CallAdd 1 (lit "T1") (lit "one") (lit "2025-07-15T14:30");
              CallReload;
              CallAdd 2 (lit "T2") (lit "two") (lit "2025-07-16T09:00")]
             (snd (constructor (fresh_state 1000))))))).
Proof.
  apply (ids_distinct_when_given_trimmed 1000
           [CallAdd 1 (lit "T1") (lit "one") (lit "2025-07-15T14:30");
            CallReload;
            CallAdd 2 (lit "T2") (lit "two") (lit "2025-07-16T09:00")]).
  repeat constructor.
Defined.

Lemma falsy_false (s : jsstring) : falsy s = false <-> s <> [].
Proof. destruct s; cbn; split; congruence. Qed.

(** X6: every stored task has an id and a description that are not empty
    and carry no white space at either end, and a datetime that is not
    blank, throughout a session that starts on an empty storage; a reload
    keeps the three fields. *)
Theorem stored_fields_normalised (q : nat) (cs : list Call) :
  Forall fields_ok (tasks (session cs (snd (constructor (fresh_state q))))).
Proof.
  assert (HI : Inv fields_ok (session cs (snd (constructor (fresh_state q))))).
  { apply session_Inv; [intros [k t] H; exact H | | apply Inv_first_page].
    apply Forall_forall. intros c _. destruct c as [now k d dt| | |]; cbn; auto.
    unfold blank. rewrite !orb_false_iff, !falsy_false.
    intros [[H1 H2] H3]. unfold fields_ok, newTask. cbn [snd id description datetime].
    rewrite !trim_idempotent. auto. }
  exact (proj1 (proj2 HI)).
Qed.

(** ** Calls and reloads together *)

Lemma saved_in_sync (st : State) : fits st = true -> in_sync (saved st).
Proof.
  intros H. unfold in_sync. rewrite tasks_saved. apply slot_saved_fits, H.
Qed.

(** A reload of a page whose storage is in step with the collection. *)
Lemma reload_in_sync (st : State) :
  Map_wf (tasks st) -> in_sync st ->
  constructor st = (Normal tt, with_tasks (map revive_entry (tasks st)) st).
Proof. intros Hwf Hs. exact (constructor_restores (tasks st) st Hwf Hs). Qed.

Lemma Map_get_revive (k : jsstring) (m : Map Task) :
  Map_get k (map revive_entry m) = option_map revive (Map_get k m).
Proof.
  induction m as [|[k' t] m IH]; [reflexivity|].
  cbn [map revive_entry fst snd Map_get].
  destruct (jsstring_eqb k' k); [reflexivity | exact IH].
Qed.

Lemma filter_absent (V : Type) (k : jsstring) (m : Map V) :
  Map_has k m = false ->
  filter (fun kv => negb (jsstring_eqb (fst kv) k)) m = m.
Proof.
  induction m as [|[k' v] m IH]; [reflexivity|].
  cbn [Map_has filter fst]. destruct (jsstring_eqb k' k); [discriminate|].
  intros H. cbn [negb]. rewrite (IH H). reflexivity.
Qed.

(** X7: a task that [addTask] accepted and wrote to the storage is there
    after a reload, under the same key and with the same id, description
    and datetime, after the tasks that were there before, which are
    restored too; its [createdAt] is the ISO string of the date. *)
Theorem added_task_survives_reload
        (now : Z) (key description datetime : jsstring) (st : State) :
  Map_wf (tasks st) ->
  fst (addTask now key description datetime st) = Normal true ->
  in_sync (snd (addTask now key description datetime st)) ->
  let st' := snd (constructor (snd (addTask now key description datetime st))) in
  fst (getTask key st')
  = Normal (Some (mkTask (trim key) (trim description) datetime
                         (DateString (Date.toISOString now))))
  /\ tasks st'
     = map revive_entry (tasks st)
       ++ [(key, mkTask (trim key) (trim description) datetime
                        (DateString (Date.toISOString now)))].
Proof.
  intros Hwf Hok Hsync st'. subst st'.
  destruct (addTask_Normal _ _ _ _ _ _ Hok) as (_ & Hhas & _ & Htasks).
  assert (Hwf' : Map_wf (tasks (snd (addTask now key description datetime st)))).
  { apply (call_wf (CallAdd now key description datetime) st Hwf). }
  rewrite (reload_in_sync _ Hwf' Hsync). cbn [snd].
  unfold getTask, bind, get_tasks, ret, with_tasks. cbn [fst snd tasks].
  rewrite Map_get_revive, Htasks, <- (Map_set_absent _ _ _ Hhas).
  rewrite Map_get_set_same, (Map_set_absent _ _ _ Hhas), map_app.
  split; reflexivity.
Qed.

Lemma added_task_survives_reload_witness :
  let st := snd (constructor (fresh_state 1000)) in
  let st' := snd (constructor (snd (addTask 0 (lit " T1") (lit "Write report ")
                                            (lit "2025-07-15T14:30") st))) in
  fst (getTask (lit " T1") st')
  = Normal (Some (mkTask (lit "T1") (lit "Write report")
                         (lit "2025-07-15T14:30")
                         (DateString (lit "1970-01-01T00:00:00.000Z")))).
Proof.
  intros st.
  destruct (added_task_survives_reload 0 (lit " T1") (lit "Write report ")
              (lit "2025-07-15T14:30") st) as [H _].
  - vm_compute. constructor.
  - vm_compute. reflexivity.
  - vm_compute. reflexivity.
  - exact H.
Defined.

(** X8: when the storage refuses the write of [addTask] (the quota is
    exceeded), the task is in the collection of this page but a reload
    does not bring it back: the new page has the collection of before the
    call. *)
Theorem refused_write_is_lost_on_reload
        (now : Z) (key description datetime : jsstring) (st : State) :
  Map_wf (tasks st) ->
  in_sync st ->
  Map_has key (tasks st) = false ->
  blank key description datetime = false ->
  fits (with_tasks (Map_set key (newTask now key description datetime)
                            (tasks st)) st) = false ->
  let st1 := snd (addTask now key description datetime st) in
  fst (addTask now key description datetime st) = Normal true
  /\ fst (getTask key st1)
     = Normal (Some (newTask now key description datetime))
  /\ fst (constructor st1) = Normal tt
  /\ tasks (snd (constructor st1)) = map revive_entry (tasks st)
  /\ fst (getTask key (snd (constructor st1))) = Normal None.
Proof.
  intros Hwf Hsync Hhas Hblank Hfits st1. subst st1.
  rewrite addTask_unfold, Hhas, Hblank. cbn [fst snd].
  fold (newTask now key description datetime).
  fold (with_tasks (Map_set key (newTask now key description datetime)
                            (tasks st)) st).
  set (st1 := with_tasks _ st) in *.
  split; [reflexivity|]. split.
  { unfold getTask, bind, get_tasks, ret. cbn [fst snd].
    rewrite tasks_saved. unfold st1, with_tasks. cbn [tasks].
    rewrite Map_get_set_same. reflexivity. }
  assert (Hslot : slot (saved st1) = Some (JSON_stringify (Map_entries (tasks st)))).
  { unfold slot. rewrite (saved_not_fits st1 Hfits). exact Hsync. }
  rewrite (constructor_restores (tasks st) (saved st1) Hwf Hslot).
  cbn [fst snd tasks]. split; [reflexivity|]. split; [reflexivity|].
  unfold getTask, bind, get_tasks, ret. cbn [fst snd tasks].
  rewrite Map_get_revive. apply Map_get_has in Hhas. rewrite Hhas. reflexivity.
Qed.

Lemma refused_write_is_lost_on_reload_witness :
  let st := snd (constructor (fresh_state 30)) in
  let st0 := snd (clearAllTasks st) in
  let st1 := snd (addTask 0 (lit "T1") (lit "Write report")
                          (lit "2025-07-15T14:30") st0) in
  fst (getTask (lit "T1") st1)
  = Normal (Some (newTask 0 (lit "T1") (lit "Write report")
                          (lit "2025-07-15T14:30")))
  /\ fst (getTask (lit "T1") (snd (constructor st1))) = Normal None.
Proof.
  intros st st0.
  destruct (refused_write_is_lost_on_reload 0 (lit "T1") (lit "Write report")
              (lit "2025-07-15T14:30") st0) as (_ & H1 & _ & _ & H2).
  - vm_compute. constructor.
  - vm_compute. reflexivity.
  - reflexivity.
  - reflexivity.
  - vm_compute. reflexivity.
  - split; [exact H1 | exact H2].
Defined.

(** X9: [removeTask] undoes [addTask]: after a successful [addTask], the
    [removeTask] of the same key returns true and the collection is what
    it was before the two calls, order included. *)
Theorem removeTask_undoes_addTask
        (now : Z) (key description datetime : jsstring) (st : State) :
  Map_wf (tasks st) ->
  fst (addTask now key description datetime st) = Normal true ->
  let r := removeTask key (snd (addTask now key description datetime st)) in
  fst r = Normal true /\ tasks (snd r) = tasks st.
Proof.
  intros Hwf Hok r. subst r.
  destruct (addTask_Normal _ _ _ _ _ _ Hok) as (_ & Hhas & _ & Htasks).
  assert (Hwf' : Map_wf (tasks (snd (addTask now key description datetime st)))).
  { apply (call_wf (CallAdd now key description datetime) st Hwf). }
  rewrite removeTask_unfold, Htasks.
  rewrite <- (Map_set_absent _ _ _ Hhas).
  assert (Hin : Map_has key (Map_set key (mkTask (trim key) (trim description)
                               datetime (DateObject now)) (tasks st)) = true).
  { destruct (Map_has key (Map_set key _ (tasks st))) eqn:E; [reflexivity|].
    apply Map_get_has in E. rewrite Map_get_set_same in E. discriminate. }
  rewrite Hin. cbn [fst snd]. split; [reflexivity|].
  rewrite tasks_saved. cbn [tasks].
  rewrite (Map_set_absent _ _ _ Hhas), <- Htasks.
  rewrite (Map_delete_filter _ _ Hwf'), Htasks, filter_app.
  rewrite (filter_absent _ _ _ Hhas). cbn [filter fst].
  rewrite jsstring_eqb_refl. cbn [negb]. apply app_nil_r.
Qed.

Lemma removeTask_undoes_addTask_witness :
  let r := removeTask (lit "B")
             (snd (addTask 5 (lit "B") (lit "again") (lit "2025-01-05T10:00")
                           after_a)) in
  fst r = Normal true /\ tasks (snd r) = tasks after_a.
Proof.
  apply (removeTask_undoes_addTask 5 (lit "B") (lit "again")
           (lit "2025-01-05T10:00") after_a).
  - vm_compute. repeat constructor. simpl. tauto.
  - vm_compute. reflexivity.
Defined.

(** X10: once [addTask] has succeeded for a key, a second [addTask] with
    that key throws the "já existe" error naming the key, whatever the
    other two arguments (blank ones too: the key is looked up first), and
    changes nothing: the first task is still the one stored. *)
Theorem second_addTask_is_rejected
        (now now' : Z) (key description datetime description' datetime' : jsstring)
        (st : State) :
  fst (addTask now key description datetime st) = Normal true ->
  let st1 := snd (addTask now key description datetime st) in
  addTask now' key description' datetime' st1 = (Throw (DuplicateKey key), st1)
  /\ fst (getTask key st1)
     = Normal (Some (newTask now key description datetime)).
Proof.
  intros Hok st1. subst st1.
  destruct (addTask_Normal _ _ _ _ _ _ Hok) as (_ & Hhas & _ & Htasks).
  assert (Hget : Map_get key (tasks (snd (addTask now key description datetime st)))
                 = Some (newTask now key description datetime)).
  { rewrite Htasks, <- (Map_set_absent _ _ _ Hhas). apply Map_get_set_same. }
  split.
  - rewrite (addTask_unfold now' key description' datetime').
    destruct (Map_has key (tasks (snd (addTask now key description datetime st))))
      eqn:E; [reflexivity|].
    apply Map_get_has in E. congruence.
  - unfold getTask, bind, get_tasks, ret. cbn [fst snd]. rewrite Hget.
    reflexivity.
Qed.

Lemma second_addTask_is_rejected_witness :
  addTask 9 (lit "a") [] [] after_a = (Throw (DuplicateKey (lit "a")), after_a).
Proof.
  apply (second_addTask_is_rejected 1735722000000 9 (lit "a") (lit "first")
           (lit "2025-01-01T09:00") [] []
           (snd (constructor (fresh_state 1000)))).
  vm_compute. reflexivity.
Defined.

(** X11: [getAllTasks] reads and does not write: the state is the same
    after the call, and the array it returns holds every stored task once
    (it is a permutation of the values), so its length is the count,
    whether or not the datetimes parse. *)
Theorem getAllTasks_is_a_permutation (host : Host) (st : State) :
  snd (getAllTasks host st) = st
  /\ exists l : list Task,
       fst (getAllTasks host st) = Normal l
       /\ Permutation (Map_values (tasks st)) l
       /\ fst (getTaskCount st) = Normal (length l).
Proof.
  rewrite getAllTasks_unfold. cbn [fst snd]. split; [reflexivity|].
  eexists. split; [reflexivity|].
  split; [apply Array_sort_Permutation|].
  unfold getTaskCount, bind, get_tasks, ret, Map_size. cbn [fst].
  f_equal.
  rewrite <- (Permutation_length
                (Array_sort_Permutation (compareDatetime host)
                                        (Map_values (tasks st)))).
  unfold Map_values. rewrite length_map. reflexivity.
Qed.

(** ** The storage outside the key of the program *)

Lemma saved_other_keys (st : State) (k : jsstring) :
  k <> STORAGE_KEY ->
  Map_get k (items (localStorage (saved st)))
  = Map_get k (items (localStorage st)).
Proof.
  intros Hk. unfold saved. destruct (_ <=? _)%nat; cbn [localStorage items];
    [|reflexivity].
  apply Map_get_set_other. exact Hk.
Qed.

Lemma quota_saved (st : State) :
  quota (localStorage (saved st)) = quota (localStorage st).
Proof. unfold saved. destruct (_ <=? _)%nat; reflexivity. Qed.

Lemma call_other_keys (c : Call) (st : State) (k : jsstring) :
  k <> STORAGE_KEY ->
  Map_get k (items (localStorage (call c st)))
  = Map_get k (items (localStorage st)).
Proof.
  intros Hk. destruct c as [now key d dt|key| |]; cbn [call].
  - rewrite addTask_unfold.
    destruct (Map_has key (tasks st)); [reflexivity|].
    destruct (blank key d dt); [reflexivity|].
    cbn [snd]. rewrite (saved_other_keys _ _ Hk). reflexivity.
  - rewrite removeTask_unfold.
    destruct (Map_has key (tasks st)); [|reflexivity].
    cbn [snd]. rewrite (saved_other_keys _ _ Hk). reflexivity.
  - unfold clearAllTasks, bind, set_tasks.
    rewrite saveToLocalStorage_saved. cbn [snd].
    rewrite (saved_other_keys _ _ Hk). reflexivity.
  - rewrite constructor_cases.
    destruct (slot st) as [text|]; [|reflexivity].
    destruct (falsy text); [reflexivity|].
    destruct (JSON.parse text) as [v|]; [|reflexivity].
    destruct (fst (new_Map v (unloaded st))); reflexivity.
Qed.

(** X12: the program touches one item of the storage only: what is stored
    under any key other than "taskManager_tasks" is the same after any
    sequence of [addTask], [removeTask], [clearAllTasks] and reloads. *)
Theorem other_storage_keys_untouched (cs : list Call) (st : State) (k : jsstring) :
  k <> STORAGE_KEY ->
  Map_get k (items (localStorage (session cs st)))
  = Map_get k (items (localStorage st)).
Proof.
  intros Hk. revert st. induction cs as [|c cs IH]; intros st; [reflexivity|].
  cbn [session fold_left]. fold (session cs (call c st)).
  rewrite IH. apply call_other_keys. exact Hk.
Qed.

Lemma other_storage_keys_untouched_witness :
  let st := mkState [] (mkStorage [(lit "theme", lit "dark")] 1000) [] in
  Map_get (lit "theme")
    (items (localStorage
       (session [CallReload;
                 CallAdd 0 (lit "T1") (lit "x") (lit "2025-07-15T14:30");
                 CallClear] st)))
  = Some (lit "dark").
Proof.
  intros st.
  rewrite (other_storage_keys_untouched
             [CallReload; CallAdd 0 (lit "T1") (lit "x") (lit "2025-07-15T14:30");
              CallClear] st (lit "theme")).
  - reflexivity.
  - discriminate.
Defined.

(** X13: JSON of the wrong shape under the key (a number, a boolean, an
    object, a string that is not empty, or an array with an item that is
    not an object) makes [new Map] throw a TypeError, which is caught: the
    constructor returns normally, logs the error and the collection is
    empty. *)
Theorem constructor_wrong_shape (st : State) (text : jsstring) (v : json) :
  slot st = Some text ->
  text <> [] ->
  JSON.parse text = Some v ->
  not_entries v = true ->
  constructor st = (Normal tt, log (load_error TypeError) (unloaded st))
  /\ tasks (snd (constructor st)) = []
  /\ trace (snd (constructor st)) = trace st ++ [load_error TypeError].
Proof.
  intros Hslot Hne Hparse Hv. rewrite constructor_cases, Hslot, Hparse.
  destruct text as [|c r]; [congruence|]. cbn [falsy].
  assert (E : fst (new_Map v (unloaded st)) = Throw TypeError).
  { destruct v as [|b|lexeme|s|l|ms]; cbn [not_entries new_Map] in *;
      try discriminate; try reflexivity.
    - destruct (falsy s); [discriminate | reflexivity].
    - rewrite Hv. reflexivity. }
  rewrite E. auto.
Qed.

Lemma constructor_wrong_shape_witness :
  let st := mkState [] (mkStorage [(STORAGE_KEY, lit "[[], 42]")] 100) [] in
  tasks (snd (constructor st)) = []
  /\ trace (snd (constructor st)) = [load_error TypeError].
Proof.
  intros st.
  destruct (constructor_wrong_shape st (lit "[[], 42]")
              (JArray [JArray []; JNumber (lit "42")]))
    as (_ & H1 & H2);
    [reflexivity | discriminate | reflexivity | reflexivity |].
  split; [exact H1 | exact H2].
Defined.

(** ** Removal and acceptance *)

(** X20: a removal that was written to the storage holds after a reload:
    the key is not found on the new page and the other tasks are restored
    in their order. *)
Theorem removed_task_stays_removed_after_reload (key : jsstring) (st : State) :
  Map_wf (tasks st) ->
  Map_has key (tasks st) = true ->
  in_sync (snd (removeTask key st)) ->
  let st' := snd (constructor (snd (removeTask key st))) in
  fst (getTask key st') = Normal None
  /\ tasks st'
     = map revive_entry
           (filter (fun kv => negb (jsstring_eqb (fst kv) key)) (tasks st)).
Proof.
  intros Hwf Hhas Hsync st'. subst st'.
  assert (Ht : tasks (snd (removeTask key st))
               = filter (fun kv => negb (jsstring_eqb (fst kv) key)) (tasks st)).
  { rewrite removeTask_unfold, Hhas. cbn [snd]. rewrite tasks_saved.
    cbn [tasks]. apply Map_delete_filter, Hwf. }
  assert (Hwf' : Map_wf (tasks (snd (removeTask key st)))).
  { apply (call_wf (CallRemove key) st Hwf). }
  rewrite (reload_in_sync _ Hwf' Hsync). cbn [snd].
  unfold getTask, bind, get_tasks, ret, with_tasks. cbn [fst snd tasks].
  rewrite Map_get_revive, Ht. split; [|reflexivity].
  assert (E : Map_get key
                (filter (fun kv => negb (jsstring_eqb (fst kv) key)) (tasks st))
              = None).
  { apply Map_get_has. apply Map_has_filter_out. }
  rewrite E. reflexivity.
Qed.

Lemma removed_task_stays_removed_after_reload_witness :
  let st' := snd (constructor (snd (removeTask (lit "B") example_store))) in
  fst (getTask (lit "B") st') = Normal None
  /\ Map_keys (tasks st') = [lit "A"; lit "C"].
Proof.
  intros st'. subst st'.
  destruct (removed_task_stays_removed_after_reload (lit "B") example_store)
    as [H1 H2].
  - vm_compute. repeat constructor; simpl; intuition discriminate.
  - vm_compute. reflexivity.
  - vm_compute. reflexivity.
  - split; [exact H1|]. rewrite H2. vm_compute. reflexivity.
Defined.

(** X21: [addTask] returns true exactly when the key is free and none of
    the three fields is blank after trimming, and throws otherwise; the
    datetime is not checked to be a date. *)
Theorem addTask_accepts_iff
        (now : Z) (key description datetime : jsstring) (st : State) :
  (fst (addTask now key description datetime st) = Normal true
   <-> Map_has key (tasks st) = false
       /\ trim key <> [] /\ trim description <> [] /\ trim datetime <> [])
  /\ (fst (addTask now key description datetime st) = Normal true
      \/ exists e, addTask now key description datetime st = (Throw e, st)).
Proof.
  rewrite addTask_unfold. unfold blank.
  destruct (Map_has key (tasks st)).
  - split; [|right; eexists; reflexivity].
    split; [discriminate | intros [H _]; discriminate].
  - destruct (falsy (trim key) || falsy (trim description)
              || falsy (trim datetime)) eqn:E.
    + split; [|right; eexists; reflexivity].
      split; [discriminate|]. intros (_ & H1 & H2 & H3).
      rewrite !orb_true_iff, !falsy_nil in E. tauto.
    + split; [|left; reflexivity].
      rewrite !orb_false_iff, !falsy_false in E. cbn [fst]. tauto.
Qed.

(** ** The ISO string of a date parses back to the date *)

Module DateFacts.
Import Date DateShapes.
Local Open Scope Z_scope.

Lemma DayFromYear_period (y k : Z) :
  DayFromYear (y + 400 * k) = DayFromYear y + 146097 * k.
Proof. unfold DayFromYear. Z.div_mod_to_equations; lia. Qed.

Lemma DayFromYear_succ (y : Z) :
  DayFromYear (y + 1) = DayFromYear y + (if isLeapYear y then 366 else 365).
Proof.
  unfold DayFromYear, isLeapYear.
  destruct (Z.eqb_spec (y mod 4) 0), (Z.eqb_spec (y mod 100) 0),
    (Z.eqb_spec (y mod 400) 0); cbn [andb orb negb]; Z.div_mod_to_equations; lia.
Qed.

Lemma YearFromTime_Day (t : Z) : YearFromTime t = yearOfDay (Day t).
Proof.
  unfold YearFromTime, yearOfDay, TimeFromYear, Day, msPerDay. cbv zeta.
  set (y := 1970 + t / 86400000 * 400 / 146097).
  generalize (DayFromYear y) (DayFromYear (y + 1)). intros a b.
  destruct (Z.ltb_spec t (86400000 * a)), (Z.ltb_spec (t / 86400000) a);
    try reflexivity; try (Z.div_mod_to_equations; lia).
  destruct (Z.leb_spec (86400000 * b) t), (Z.leb_spec b (t / 86400000));
    try reflexivity; Z.div_mod_to_equations; lia.
Qed.

Lemma yearOfDay_spec (d : Z) :
  DayFromYear (yearOfDay d) <= d < DayFromYear (yearOfDay d + 1).
Proof.
  unfold yearOfDay. cbv zeta.
  set (y := 1970 + d * 400 / 146097).
  assert (B : DayFromYear (y - 1) <= d < DayFromYear (y + 2)).
  { unfold DayFromYear, y. Z.div_mod_to_equations; lia. }
  destruct (Z.ltb_spec d (DayFromYear y)).
  - replace (y - 1 + 1) with y by lia. lia.
  - destruct (Z.leb_spec (DayFromYear (y + 1)) d).
    + replace (y + 1 + 1) with (y + 2) by lia. lia.
    + lia.
Qed.

Lemma DayWithinYear_range (t : Z) :
  0 <= DayWithinYear t < 365 + InLeapYear t.
Proof.
  unfold DayWithinYear, InLeapYear. rewrite YearFromTime_Day.
  pose proof (yearOfDay_spec (Day t)) as H.
  rewrite DayFromYear_succ in H.
  destruct (isLeapYear (yearOfDay (Day t))); lia.
Qed.

Lemma all_from_spec (f : Z -> bool) (n : nat) :
  forall d, all_from f n d = true ->
  forall r, d <= r < d + Z.of_nat n -> f r = true.
Proof.
  induction n as [|n IH]; intros d H r Hr; [lia|].
  cbn [all_from] in H. apply andb_true_iff in H. destruct H as [H1 H2].
  destruct (Z.eq_dec r d) as [->|Hne]; [exact H1|].
  apply (IH (d + 1) H2). lia.
Qed.

Lemma monthOfDay_spec (leap d : Z) :
  leap = 0 \/ leap = 1 ->
  0 <= d < 365 + leap ->
  let m := monthOfDay leap d in
  0 <= m <= 11 /\ monthStart leap m <= d < monthStart leap (m + 1).
Proof.
  intros Hleap Hd m.
  assert (H : month_ok leap d = true).
  { destruct Hleap as [-> | ->].
    - apply (all_from_spec (month_ok 0) 365 0); [vm_compute; reflexivity | lia].
    - apply (all_from_spec (month_ok 1) 366 0); [vm_compute; reflexivity | lia]. }
  unfold month_ok in H. fold m in H.
  rewrite !andb_true_iff, !Z.leb_le, Z.ltb_lt in H. lia.
Qed.

Lemma isDigit_digit (x : Z) :
  0 <= x <= 9 -> isDigit (digit x) = true /\ Z.of_N (digit x) - 48 = x.
Proof.
  intros H. unfold isDigit, digit.
  rewrite andb_true_iff, !N.leb_le. lia.
Qed.

Lemma take_digits_pad (n : nat) :
  forall v acc rest k,
    0 <= v < 10 ^ Z.of_nat n ->
    take_digits (n + k) acc (pad n v ++ rest)
    = take_digits k (acc * 10 ^ Z.of_nat n + v) rest.
Proof.
  induction n as [|n IH]; intros v acc rest k Hv.
  - cbn [pad app Nat.add]. f_equal. cbn in Hv. lia.
  - cbn [pad]. rewrite <- app_assoc. cbn [app].
    replace (S n + k)%nat with (n + S k)%nat by lia.
    rewrite Nat2Z.inj_succ, Z.pow_succ_r in Hv by lia.
    rewrite IH by (Z.div_mod_to_equations; lia).
    cbn [take_digits].
    destruct (isDigit_digit (v mod 10)) as [Hd Hx];
      [Z.div_mod_to_equations; lia|].
    rewrite Hd, Hx. f_equal.
    rewrite Nat2Z.inj_succ, Z.pow_succ_r by lia.
    Z.div_mod_to_equations; lia.
Qed.

Lemma take_digits_pad0 (n : nat) (v : Z) (rest : jsstring) :
  0 <= v < 10 ^ Z.of_nat n ->
  take_digits n 0 (pad n v ++ rest) = Some (v, rest).
Proof.
  intros Hv. pose proof (take_digits_pad n v 0 rest 0 Hv) as H.
  rewrite Nat.add_0_r in H. rewrite H. cbn [take_digits].
  replace (0 * 10 ^ Z.of_nat n + v) with v by lia. reflexivity.
Qed.

Lemma starts_cons (c : N) (s : jsstring) : starts c (c :: s) = Some s.
Proof. cbn [starts]. rewrite N.eqb_refl. reflexivity. Qed.

Lemma scan_opt2_pad (sep : N) (dflt v : Z) (rest : jsstring) :
  0 <= v < 100 ->
  scan_opt2 sep dflt (sep :: pad 2 v ++ rest) = Some (Some v, rest).
Proof.
  intros Hv. unfold scan_opt2. rewrite starts_cons.
  rewrite take_digits_pad0 by (cbn; lia). reflexivity.
Qed.

Lemma scan_year_digits (s : jsstring) (x : Z * jsstring) :
  take_digits 4 0 s = Some x -> scan_year s = Some x.
Proof.
  destruct s as [|c r]; [discriminate|]. intros H. unfold scan_year.
  cbn [take_digits] in H. destruct (isDigit c) eqn:E; [|discriminate].
  unfold isDigit in E. rewrite andb_true_iff, !N.leb_le in E.
  destruct (N.eqb_spec c 43); [lia|]. destruct (N.eqb_spec c 45); [lia|].
  cbn [take_digits]. unfold isDigit.
  destruct ((48 <=? c)%N && (c <=? 57)%N) eqn:E'; [exact H|].
  rewrite andb_false_iff, !N.leb_gt in E'. lia.
Qed.

Lemma scan_year_yearText (y : Z) (rest : jsstring) :
  -1000000 < y < 1000000 ->
  scan_year (yearText y ++ rest) = Some (y, rest).
Proof.
  intros Hy. unfold yearText.
  destruct (Z.leb_spec 0 y); cbn [andb].
  - destruct (Z.leb_spec y 9999).
    + apply scan_year_digits. apply take_digits_pad0. cbn; lia.
    + destruct (Z.ltb_spec y 0); [lia|].
      rewrite <- app_assoc.
      change (scan_year (lit "+" ++ pad 6 (Z.abs y) ++ rest))
        with (take_digits 6 0 (pad 6 (Z.abs y) ++ rest)).
      rewrite take_digits_pad0 by (cbn; lia).
      f_equal. f_equal. lia.
  - destruct (Z.ltb_spec y 0); [|lia].
    rewrite <- app_assoc.
    change (scan_year (lit "-" ++ pad 6 (Z.abs y) ++ rest))
      with (match take_digits 6 0 (pad 6 (Z.abs y) ++ rest) with
            | Some (y', r') => if y' =? 0 then None else Some (- y', r')
            | None => None
            end).
    rewrite take_digits_pad0 by (cbn; lia).
    destruct (Z.eqb_spec (Z.abs y) 0); [lia|]. f_equal. f_equal. lia.
Qed.

Lemma scan_time_iso (h mi s ms : Z) :
  0 <= h < 100 -> 0 <= mi < 100 -> 0 <= s < 100 -> 0 <= ms < 1000 ->
  scan_time (84%N :: pad 2 h ++ 58%N :: pad 2 mi ++ 58%N :: pad 2 s
             ++ 46%N :: pad 3 ms ++ [90%N])
  = Some (Some (h, mi, s, ms), Some 0, []).
Proof.
  intros Hh Hmi Hs Hms. unfold scan_time. rewrite starts_cons.
  rewrite take_digits_pad0 by (cbn; lia).
  rewrite scan_opt2_pad by lia. rewrite scan_opt2_pad by lia.
  rewrite starts_cons. rewrite take_digits_pad0 by (cbn; lia).
  reflexivity.
Qed.

Lemma toISOString_shape (t : Z) :
  toISOString t
  = yearText (YearFromTime t)
    ++ 45%N :: pad 2 (MonthFromTime t + 1)
    ++ 45%N :: pad 2 (DateFromTime t)
    ++ 84%N :: pad 2 (HourFromTime t) ++ 58%N :: pad 2 (MinFromTime t)
    ++ 58%N :: pad 2 (SecFromTime t) ++ 46%N :: pad 3 (msFromTime t) ++ [90%N].
Proof. reflexivity. Qed.

Lemma InLeapYear_cases (t : Z) : InLeapYear t = 0 \/ InLeapYear t = 1.
Proof. unfold InLeapYear. destruct (isLeapYear _); auto. Qed.

Lemma MonthFromTime_spec (t : Z) :
  0 <= MonthFromTime t <= 11
  /\ monthStart (InLeapYear t) (MonthFromTime t) <= DayWithinYear t
     < monthStart (InLeapYear t) (MonthFromTime t + 1).
Proof.
  apply (monthOfDay_spec (InLeapYear t) (DayWithinYear t)).
  - apply InLeapYear_cases.
  - apply DayWithinYear_range.
Qed.

Lemma time_fields (t : Z) :
  0 <= HourFromTime t <= 23 /\ 0 <= MinFromTime t <= 59
  /\ 0 <= SecFromTime t <= 59 /\ 0 <= msFromTime t <= 999
  /\ MakeTime (HourFromTime t) (MinFromTime t) (SecFromTime t) (msFromTime t)
     = TimeWithinDay t.
Proof.
  unfold HourFromTime, MinFromTime, SecFromTime, msFromTime, MakeTime,
    TimeWithinDay, msPerHour, msPerMinute, msPerSecond, msPerDay.
  Z.div_mod_to_equations. lia.
Qed.

Lemma YearFromTime_bound (t : Z) :
  Z.abs t <= 8640000000000000 -> -1000000 < YearFromTime t < 1000000.
Proof.
  intros H. rewrite YearFromTime_Day. unfold yearOfDay, Day, msPerDay.
  cbv zeta.
  destruct (_ <? _); [|destruct (_ <=? _)]; Z.div_mod_to_equations; lia.
Qed.

(** [Date.parse(new Date(t).toISOString())] is [t], in every host. *)
Lemma parse_toISOString (host : Host) (t : Z) :
  Z.abs t <= 8640000000000000 ->
  Date.parse host (Date.toISOString t) = Some t.
Proof.
  intros Ht.
  pose proof (YearFromTime_bound t Ht) as Hy.
  destruct (MonthFromTime_spec t) as (Hm & Hd).
  destruct (time_fields t) as (Hh & Hmi & Hs & Hms & Htime).
  assert (HD : 1 <= DateFromTime t <= 31
               /\ DateFromTime t
                  <= daysInMonth (YearFromTime t) (MonthFromTime t)).
  { unfold DateFromTime, daysInMonth.
    change (if isLeapYear (YearFromTime t) then 1 else 0) with (InLeapYear t).
    assert (monthStart (InLeapYear t) (MonthFromTime t + 1)
            - monthStart (InLeapYear t) (MonthFromTime t) <= 31).
    { destruct (InLeapYear_cases t) as [-> | ->];
        assert (In (MonthFromTime t) [0;1;2;3;4;5;6;7;8;9;10;11])
          by (cbn; lia);
        cbn [In] in *;
        repeat match goal with H : _ \/ _ |- _ => destruct H as [<-|H] end;
        try contradiction; vm_compute; intro Hc; discriminate Hc. }
    lia. }
  unfold Date.parse. rewrite toISOString_shape. unfold scan.
  rewrite scan_year_yearText by exact Hy.
  rewrite scan_opt2_pad by lia. rewrite scan_opt2_pad by lia.
  rewrite scan_time_iso by lia.
  unfold in_range. cbn [f_year f_month f_day f_time f_offset].
  replace (MonthFromTime t + 1 - 1) with (MonthFromTime t) by lia.
  assert (R : (1 <=? MonthFromTime t + 1) && (MonthFromTime t + 1 <=? 12)
              && (1 <=? DateFromTime t)
              && (DateFromTime t
                  <=? daysInMonth (YearFromTime t) (MonthFromTime t))
              && ((MinFromTime t <=? 59) && (SecFromTime t <=? 59)
                  && ((HourFromTime t <=? 23)
                      || (HourFromTime t =? 24) && (MinFromTime t =? 0)
                         && (SecFromTime t =? 0) && (msFromTime t =? 0)))
              = true).
  { rewrite !andb_true_iff, orb_true_iff, !Z.leb_le. lia. }
  rewrite R. unfold time_of. cbn [f_year f_month f_day f_time f_offset].
  replace (MonthFromTime t + 1 - 1) with (MonthFromTime t) by lia.
  rewrite Htime.
  assert (E : MakeDate (MakeDay (YearFromTime t) (MonthFromTime t)
                                (DateFromTime t)) (TimeWithinDay t)
              - 0 * msPerMinute = t).
  { unfold MakeDate, MakeDay, DateFromTime, DayWithinYear, TimeWithinDay, Day.
    change (if isLeapYear (YearFromTime t) then 1 else 0) with (InLeapYear t).
    unfold msPerDay, msPerMinute. Z.div_mod_to_equations. lia. }
  rewrite E. unfold TimeClip.
  destruct (Z.leb_spec (Z.abs t) 8640000000000000); [reflexivity | lia].
Qed.


End DateFacts.

(** X22: the creation time survives the storage: after a successful
    [addTask] at a time value [now] in the range of Date, written to the
    storage, the task a reload restores has for [createdAt] a string that
    [Date.parse] reads, in every host, as [now] to the millisecond. *)
Theorem restored_createdAt_is_the_instant
        (host : Host) (now : Z) (key description datetime : jsstring)
        (st : State) :
  (Z.abs now <= 8640000000000000)%Z ->
  Map_wf (tasks st) ->
  fst (addTask now key description datetime st) = Normal true ->
  in_sync (snd (addTask now key description datetime st)) ->
  let st' := snd (constructor (snd (addTask now key description datetime st))) in
  exists (t : Task) (s : jsstring),
    fst (getTask key st') = Normal (Some t)
    /\ createdAt t = DateString s
    /\ Date.parse host s = Some now.
Proof.
  intros Hnow Hwf Hok Hsync st'. subst st'.
  destruct (addTask_Normal _ _ _ _ _ _ Hok) as (_ & Hhas & _ & Htasks).
  assert (Hwf' : Map_wf (tasks (snd (addTask now key description datetime st)))).
  { apply (call_wf (CallAdd now key description datetime) st Hwf). }
  rewrite (reload_in_sync _ Hwf' Hsync). cbn [snd].
  unfold getTask, bind, get_tasks, ret, with_tasks. cbn [fst snd tasks].
  rewrite Map_get_revive, Htasks, <- (Map_set_absent _ _ _ Hhas).
  rewrite Map_get_set_same. cbn [option_map revive createdAt].
  eexists. eexists. split; [reflexivity|]. split; [reflexivity|].
  apply DateFacts.parse_toISOString. exact Hnow.
Qed.

Lemma restored_createdAt_is_the_instant_witness :
  let st := snd (constructor (fresh_state 1000)) in
  let st' := snd (constructor (snd (addTask 1752589800123 (lit "T1")
                                            (lit "Write report")
                                            (lit "2025-07-15T14:30") st))) in
  exists (t : Task) (s : jsstring),
    fst (getTask (lit "T1") st') = Normal (Some t)
    /\ createdAt t = DateString s
    /\ Date.parse UTC_host s = Some 1752589800123%Z.
Proof.
  intros st.
  apply (restored_createdAt_is_the_instant UTC_host 1752589800123 (lit "T1")
           (lit "Write report") (lit "2025-07-15T14:30") st).
  - vm_compute. discriminate.
  - vm_compute. constructor.
  - vm_compute. reflexivity.
  - vm_compute. reflexivity.
Defined.

(** * Part IV: properties of the TaskUI *)



(** X15: a search never finds a task that was stored under a key with
    white space around it, because the term is trimmed before the lookup:
    in a store whose keys all have such white space, whatever is typed in
    the search box, the result is the prompt (blank term) or the "não
    encontrada" message for the trimmed term; the manager is not changed. *)
Theorem search_never_finds_padded_key (b : Browser) (u : UI) :
  (forall k, Map_has k (tasks (manager u)) = true -> trim k <> k) ->
  let u' := handleSearch b u in
  manager u' = manager u
  /\ (search_result (dom u') = html_prompt
      \/ search_result (dom u')
         = html_search_miss (trim (input_search (dom u)))).
Proof.
  intros Hpad u'. subst u'. unfold handleSearch.
  destruct (falsy (trim (input_search (dom u)))); [auto|].
  unfold getTask, bind, get_tasks, ret, value. cbn [fst].
  destruct (Map_get (trim (input_search (dom u))) (tasks (manager u)))
    as [t|] eqn:E; [|auto].
  exfalso. apply (Hpad (trim (input_search (dom u)))).
  - destruct (Map_has (trim (input_search (dom u))) (tasks (manager u))) eqn:Eh;
      [reflexivity|].
    apply Map_get_has in Eh. congruence.
  - apply trim_idempotent.
Qed.

Lemma search_never_finds_padded_key_witness :
  let u := mkUI (snd (addTask 0 (lit " a") (lit "second")
                              (lit "2025-01-02T10:00")
                              (snd (constructor (fresh_state 1000)))))
                (set_input_search (lit " a") blank_dom) in
  search_result (dom (handleSearch plain_browser u))
  = html_search_miss (lit "a").
Proof.
  intros u.
  destruct (search_never_finds_padded_key plain_browser u) as [_ [H|H]].
  - intros k. change (tasks (manager u))
      with (tasks (snd (addTask 0 (lit " a") (lit "second")
                                (lit "2025-01-02T10:00")
                                (snd (constructor (fresh_state 1000)))))).
    replace (tasks (snd (addTask 0 (lit " a") (lit "second")
                                 (lit "2025-01-02T10:00")
                                 (snd (constructor (fresh_state 1000))))))
      with [(lit " a", newTask 0 (lit " a") (lit "second")
                               (lit "2025-01-02T10:00"))]
      by (vm_compute; reflexivity).
    cbn [Map_has]. destruct (jsstring_eqb (lit " a") k) eqn:E; [|discriminate].
    apply jsstring_eqb_eq in E. subst k. intros _. discriminate.
  - vm_compute in H. discriminate.
  - exact H.
Defined.



(** X17: a message can be hidden before its three seconds are over:
    [showMessage] starts a timeout and never cancels one, so when a second
    message is shown [ms] milliseconds after a first, the timeout of the
    first hides the second after 3000 - [ms] milliseconds only. *)
Theorem earlier_timeout_hides_later_message
        (text1 text2 : jsstring) (type1 type2 : MessageType) (ms : Z) (u : UI) :
  (0 < ms < 3000)%Z ->
  let u2 := showMessage text2 type2 (elapse ms (showMessage text1 type1 u)) in
  message_text (dom u2) = text2
  /\ message_class (dom u2) = lit "message " ++ type_name type2
  /\ message_text (dom (elapse (3000 - ms) u2)) = text2
  /\ message_class (dom (elapse (3000 - ms) u2)) = lit "message hidden".
Proof.
  intros Hms u2. subst u2.
  split; [reflexivity|]. split; [reflexivity|]. split; [reflexivity|].
  cbn [elapse showMessage dom message_class timers].
  match goal with |- (if ?c then _ else _) = _ => assert (E : c = true) end.
  { apply existsb_exists. exists (3000 - ms)%Z. split; [|apply Z.leb_refl].
    apply in_or_app. left. apply in_map_iff. exists 3000%Z.
    split; [reflexivity|]. apply filter_In. split.
    - apply in_or_app. right. left. reflexivity.
    - apply negb_true_iff. apply Z.leb_gt. lia. }
  rewrite E. reflexivity.
Qed.

Lemma earlier_timeout_hides_later_message_witness :
  let u := mkUI (fresh_state 0) blank_dom in
  let u2 := showMessage (lit "second") type_error
              (elapse 2000 (showMessage (lit "first") type_success u)) in
  message_class (dom (elapse 1000 u2)) = lit "message hidden".
Proof.
  intros u.
  destruct (earlier_timeout_hides_later_message (lit "first") (lit "second")
              type_success type_error 2000 u) as (_ & _ & _ & H);
    [lia | exact H].
Defined.

Lemma html_task_item_description (t : Task) (formatted : jsstring) :
  exists pre post,
    html_task_item t formatted
    = pre ++ lit "<p>" ++ description t ++ lit "</p>" ++ post.
Proof.
  exists ([10] ++ lit "            <div class=" ++ [34] ++ lit "task-item"
          ++ [34] ++ lit ">" ++ [10] ++ lit "                <div class="
          ++ [34] ++ lit "task-info" ++ [34] ++ lit ">" ++ [10]
          ++ lit "                    <h3>" ++ id t ++ lit "</h3>" ++ [10]
          ++ lit "                    ").
  eexists. unfold html_task_item. rewrite <- !app_assoc. reflexivity.
Qed.

(** X18: the description of a task goes into the markup of the list as
    it is, with no escaping: for every stored task the [innerHTML] that
    [renderTasks] writes contains the text <p>description</p> with the
    stored description character for character. *)
Theorem rendered_description_is_raw (b : Browser) (u : UI) (t : Task) :
  In t (Map_values (tasks (manager u))) ->
  exists pre post,
    tasks_list (dom (renderTasks b u))
    = pre ++ lit "<p>" ++ description t ++ lit "</p>" ++ post.
Proof.
  intros Hin. cbn [renderTasks dom set_tasks_list tasks_list].
  unfold rendered. rewrite getAllTasks_unfold. cbn [value fst].
  set (l := Array_sort (compareDatetime (engine b)) (Map_values (tasks (manager u)))).
  assert (Hl : In t l).
  { eapply Permutation_in; [apply Array_sort_Permutation | exact Hin]. }
  destruct l as [|x l']; [contradiction|]. cbn [length Nat.eqb].
  destruct (in_split _ _ Hl) as (l1 & l2 & ->).
  rewrite map_app, concat_app. cbn [map concat].
  destruct (html_task_item_description t (formatDateTime b (datetime t)))
    as (pre & post & ->).
  exists (concat (map (fun task => html_task_item task
                                     (formatDateTime b (datetime task))) l1)
          ++ pre).
  eexists. rewrite <- !app_assoc. reflexivity.
Qed.

Lemma rendered_description_is_raw_witness :
  let u := mkUI (snd (addTask 0 (lit "x") (lit "<img src=x onerror=alert(1)>")
                              (lit "2025-07-15T14:30")
                              (snd (constructor (fresh_state 1000)))))
                blank_dom in
  exists pre post,
    tasks_list (dom (renderTasks plain_browser u))
    = pre ++ lit "<p>" ++ lit "<img src=x onerror=alert(1)>" ++ lit "</p>"
      ++ post.
Proof.
  intros u.
  apply (rendered_description_is_raw plain_browser u
           (newTask 0 (lit "x") (lit "<img src=x onerror=alert(1)>")
                    (lit "2025-07-15T14:30"))).
  vm_compute. left. reflexivity.
Defined.

(** X19: [handleAddTask] lets no exception out and, when [addTask] throws
    (the key is taken, or a field is blank), changes nothing but the
    message box: the manager, the three inputs of the form, the list and
    the search result are as before, and the box shows the message of the
    error with the class 'message error'. *)
Theorem handleAddTask_rejected (b : Browser) (now : Z) (u : UI) (e : Exn) :
  fst (addTask now (input_id (dom u)) (input_description (dom u))
               (input_datetime (dom u)) (manager u)) = Throw e ->
  let u' := handleAddTask b now u in
  (e = DuplicateKey (input_id (dom u)) \/ e = InvalidInput)
  /\ manager u' = manager u
  /\ input_id (dom u') = input_id (dom u)
  /\ input_description (dom u') = input_description (dom u)
  /\ input_datetime (dom u') = input_datetime (dom u)
  /\ tasks_list (dom u') = tasks_list (dom u)
  /\ search_result (dom u') = search_result (dom u)
  /\ Error (message_text (dom u')) = e
  /\ message_class (dom u') = lit "message error".
Proof.
  intros H u'. subst u'. unfold handleAddTask. revert H.
  rewrite addTask_unfold.
  destruct (Map_has (input_id (dom u)) (tasks (manager u))).
  - cbn [fst]. intros H. injection H as <-. repeat split. left. reflexivity.
  - destruct (blank _ _ _); cbn [fst]; [|discriminate].
    intros H. injection H as <-. repeat split. right. reflexivity.
Qed.

Lemma handleAddTask_rejected_witness :
  let u := mkUI after_a
                (set_inputs (lit "a") (lit "again") (lit "2025-02-01T08:00")
                            blank_dom) in
  manager (handleAddTask plain_browser 7 u) = after_a
  /\ input_id (dom (handleAddTask plain_browser 7 u)) = lit "a"
  /\ message_class (dom (handleAddTask plain_browser 7 u)) = lit "message error".
Proof.
  intros u.
  destruct (handleAddTask_rejected plain_browser 7 u (DuplicateKey (lit "a")))
    as (_ & H1 & H2 & _ & _ & _ & _ & _ & H3).
  - vm_compute. reflexivity.
  - split; [exact H1|]. split; [exact H2 | exact H3].
Defined.

(** X23: the search box is cleared after a removal only when its text is
    the removed key character for character, although the search itself
    trims the text: after a search that found the task and a confirmed
    removal of it, the result panel and the box are emptied when the box
    holds exactly the key, and otherwise (white space around the key) the
    panel goes on showing the task that is no longer stored. *)
Theorem search_result_after_removal
        (b : Browser) (key : jsstring) (t : Task) (u : UI) :
  Map_wf (tasks (manager u)) ->
  Map_get key (tasks (manager u)) = Some t ->
  trim (input_search (dom u)) = key ->
  key <> [] ->
  let u' := ui_removeTask b true key (handleSearch b u) in
  fst (getTask key (manager u')) = Normal None
  /\ if jsstring_eqb (input_search (dom u)) key
     then search_result (dom u') = [] /\ input_search (dom u') = []
     else search_result (dom u')
          = html_search_hit t (formatDateTime b (datetime t))
          /\ input_search (dom u') = input_search (dom u).
Proof.
  intros Hwf Hget Htrim Hne u'. subst u'.
  assert (Hhas : Map_has key (tasks (manager u)) = true).
  { destruct (Map_has key (tasks (manager u))) eqn:E; [reflexivity|].
    apply Map_get_has in E. congruence. }
  assert (Hs : handleSearch b u
               = mkUI (manager u)
                      (set_search_result
                         (html_search_hit t (formatDateTime b (datetime t)))
                         (dom u))).
  { unfold handleSearch. rewrite Htrim.
    destruct key as [|c r]; [congruence|]. cbn [falsy].
    unfold getTask, bind, get_tasks, ret, value. cbn [fst].
    rewrite Hget. reflexivity. }
  rewrite Hs. unfold ui_removeTask. cbn [manager dom].
  rewrite removeTask_unfold, Hhas. cbn [value fst snd].
  assert (Hm : tasks (saved (mkState (snd (Map_delete key (tasks (manager u))))
                                     (localStorage (manager u))
                                     (trace (manager u))))
               = filter (fun kv => negb (jsstring_eqb (fst kv) key))
                        (tasks (manager u))).
  { rewrite tasks_saved. cbn [tasks]. apply Map_delete_filter, Hwf. }
  assert (Hgone : Map_get key
                    (filter (fun kv => negb (jsstring_eqb (fst kv) key))
                            (tasks (manager u))) = None).
  { apply Map_get_has, Map_has_filter_out. }
  cbv zeta.
  cbn [showMessage renderTasks dom manager set_tasks_list show_dialog
       set_search_result input_search].
  destruct (jsstring_eqb (input_search (dom u)) key);
    cbn [manager dom set_input_search set_search_result search_result
         input_search showMessage renderTasks set_tasks_list show_dialog];
    unfold getTask, bind, get_tasks, ret; cbn [fst]; rewrite Hm, Hgone; auto.
Qed.

Lemma search_result_after_removal_witness :
  let u := mkUI after_a (set_input_search (lit " a ") blank_dom) in
  let u' := ui_removeTask plain_browser true (lit "a")
                          (handleSearch plain_browser u) in
  fst (getTask (lit "a") (manager u')) = Normal None
  /\ search_result (dom u')
     = html_search_hit (newTask 1735722000000 (lit "a") (lit "first")
                                (lit "2025-01-01T09:00"))
                       (lit "01/01/2025, 09:00").
Proof.
  intros u.
  destruct (search_result_after_removal plain_browser (lit "a")
              (newTask 1735722000000 (lit "a") (lit "first")
                       (lit "2025-01-01T09:00")) u) as [H1 H2].
  - vm_compute. repeat constructor. simpl. tauto.
  - vm_compute. reflexivity.
  - reflexivity.
  - discriminate.
  - split; [exact H1|].
    change (jsstring_eqb (input_search (dom u)) (lit "a")) with false in H2.
    destruct H2 as [H2 _]. rewrite H2. vm_compute. reflexivity.
Defined.
